(** * dnsx: option parsing of the runner (internal/runner/options.go)

    A shallow embedding of the startup configuration code: the rcode filter
    ([configureRcodes]), the input-mode rules ([validateOptions]), the
    resume checkpoint ([ShouldLoadResume], [ShouldSaveResume],
    [configureResume]) and their sequencing in [ParseOptions]. *)

From Stdlib Require Import ZArith Ascii String List Bool Lia.
From stdpp Require Import base decidable option list gmap strings.

Local Open Scope string_scope.
Local Open Scope Z_scope.

(** ** Go strings: byte sequences *)

(** A Go string is a sequence of bytes; [ascii] is one byte. *)
Definition byteVal (c : ascii) : Z := Z.of_N (N_of_ascii c).

(** [c < utf8.RuneSelf]: the byte is an ASCII character. *)
Definition isASCIIByte (c : ascii) : bool := byteVal c <? 128.

Fixpoint isASCII (s : string) : bool :=
  match s with
  | EmptyString => true
  | String c s' => isASCIIByte c && isASCII s'
  end.

(** The ASCII branch of [strings.ToLower]: ['A'..'Z'] get ['a' - 'A'] added. *)
Definition lowerByte (c : ascii) : ascii :=
  if (65 <=? byteVal c) && (byteVal c <=? 90)
  then ascii_of_N (N_of_ascii c + 32)
  else c.

Fixpoint lowerASCII (s : string) : string :=
  match s with
  | EmptyString => EmptyString
  | String c s' => String (lowerByte c) (lowerASCII s')
  end.

(** [strings.Split(s, ",")]: the first field and the fields after it.  The
    result of [Split] always has at least one field ([Split ""] is [[""]]). *)
Fixpoint splitComma (s : string) : string * list string :=
  match s with
  | EmptyString => (EmptyString, [])
  | String c s' =>
      let '(t, ts) := splitComma s' in
      if Ascii.eqb c "," then (EmptyString, t :: ts) else (String c t, ts)
  end.

Definition Split (s : string) : list string :=
  let '(t, ts) := splitComma s in t :: ts.

(** ** strconv.Atoi on a 64-bit platform *)

Definition intSize : Z := 64.
Definition maxInt : Z := 2 ^ (intSize - 1) - 1.
Definition minInt : Z := - 2 ^ (intSize - 1).

Definition digitVal (c : ascii) : option Z :=
  if (48 <=? byteVal c) && (byteVal c <=? 57) then Some (byteVal c - 48) else None.

(** The digit loop: [n = n*10 + int(ch)], a syntax error on any other byte. *)
Fixpoint parseDigits (s : string) (n : Z) : option Z :=
  match s with
  | EmptyString => Some n
  | String ch s' =>
      match digitVal ch with
      | Some d => parseDigits s' (n * 10 + d)
      | None => None
      end
  end.

(** [Atoi s]: an optional sign, then at least one decimal digit; [None] is
    Go's non-nil [*NumError] (syntax, or value out of the range of [int]). *)
Definition Atoi (s : string) : option Z :=
  match s with
  | EmptyString => None
  | String s0 rest =>
      let body := if Ascii.eqb s0 "-" || Ascii.eqb s0 "+" then rest else s in
      match body with
      | EmptyString => None
      | _ =>
          match parseDigits body 0 with
          | None => None
          | Some n =>
              let n := if Ascii.eqb s0 "-" then - n else n in
              if (minInt <=? n) && (n <=? maxInt) then Some n else None
          end
      end
  end.

(** A Go [error], carried by its message. *)
Record error : Type := errorsNew { Error : string }.

(** What one iteration of the loop of [configureRcodes] does with a token:
    [continue], a code to insert, or the error of [strconv.Atoi]. *)
Inductive tokenCase : Type :=
  | Continue
  | Rc (rc : Z)
  | AtoiError.

(** ** Logging and process exit *)

(** [levels.LevelVerbose] and [levels.LevelSilent] of gologger. *)
Inductive Level : Type := LevelVerbose | LevelSilent.

(** The calls made on the logger and the banner, in program order.
    [gologger.Fatal()] logs its message and then calls [os.Exit(1)]. *)
Inductive logCall : Type :=
  | SetMaxLevel (l : Level)
  | FatalMsg (msg : string)
  | InfoMsg (msg : string)
  | showBanner.

Definition newline : string := String (ascii_of_nat 10) EmptyString.

Definition DefaultResumeFile : string := "resume.cfg".

Section Runner.

(** [strings.ToLower] maps a string with a byte above 0x7f rune by rune with
    the Unicode tables; that branch is a parameter of the development. *)
Variable unicodeToLower : string -> string.

Definition ToLower (s : string) : string :=
  if isASCII s then lowerASCII s else unicodeToLower s.

(** The [switch strings.ToLower(rcode)] of [configureRcodes]: the tag is
    compared with the case values from top to bottom; the default case parses
    the token itself (not the lower-cased tag) with [strconv.Atoi]. *)
Definition rcodeSwitch (rcode : string) : tokenCase :=
  let tag := ToLower rcode in
  if String.eqb tag "" then Continue
  else if String.eqb tag "noerror" then Rc 0
  else if String.eqb tag "formerr" then Rc 1
  else if String.eqb tag "servfail" then Rc 2
  else if String.eqb tag "nxdomain" then Rc 3
  else if String.eqb tag "notimp" then Rc 4
  else if String.eqb tag "refused" then Rc 5
  else if String.eqb tag "yxdomain" then Rc 6
  else if String.eqb tag "yxrrset" then Rc 7
  else if String.eqb tag "nxrrset" then Rc 8
  else if String.eqb tag "notauth" then Rc 9
  else if String.eqb tag "notzone" then Rc 10
  else if String.eqb tag "badsig" || String.eqb tag "badvers" then Rc 16
  else if String.eqb tag "badkey" then Rc 17
  else if String.eqb tag "badtime" then Rc 18
  else if String.eqb tag "badmode" then Rc 19
  else if String.eqb tag "badname" then Rc 20
  else if String.eqb tag "badalg" then Rc 21
  else if String.eqb tag "badtrunc" then Rc 22
  else if String.eqb tag "badcookie" then Rc 23
  else
    match Atoi rcode with
    | Some rc => Rc rc
    | None => AtoiError
    end.

(** ** The options record *)

(** [ResumeCfg] is declared in another file of the package; the code here
    only allocates its zero value and hands it to [goconfig.Load]. *)
Context {ResumeCfg : Type}.
Variable zeroResumeCfg : ResumeCfg.

(** The fields of [Options] that the functions of this file read or write
    after flag parsing.  The other fields of the struct (thread count, output
    file, record-type toggles, ...) are only bound to flags. *)
Record Options : Type := mkOptions {
  Hosts : string;
  Domains : string;
  WordList : string;
  Silent : bool;
  Verbose : bool;
  Version : bool;
  Response : bool;
  ResponseOnly : bool;
  rcodes : gset Z;                (* map[int]struct{} *)
  RCode : string;
  hasRCodes : bool;
  Resume : bool;
  resumeCfg : option ResumeCfg    (* *ResumeCfg, nil before configureResume *)
}.

Definition set_rcodes (m : gset Z) (o : Options) : Options :=
  mkOptions (Hosts o) (Domains o) (WordList o) (Silent o) (Verbose o)
    (Version o) (Response o) (ResponseOnly o) m (RCode o) (hasRCodes o)
    (Resume o) (resumeCfg o).

Definition set_hasRCodes (b : bool) (o : Options) : Options :=
  mkOptions (Hosts o) (Domains o) (WordList o) (Silent o) (Verbose o)
    (Version o) (Response o) (ResponseOnly o) (rcodes o) (RCode o) b
    (Resume o) (resumeCfg o).

Definition set_resumeCfg (r : option ResumeCfg) (o : Options) : Options :=
  mkOptions (Hosts o) (Domains o) (WordList o) (Silent o) (Verbose o)
    (Version o) (Response o) (ResponseOnly o) (rcodes o) (RCode o)
    (hasRCodes o) (Resume o) r.

(** ** configureRcodes *)

(** The [for _, rcode := range rcodes] loop over the fields, threading the
    map [options.rcodes]; it stops at the first token [Atoi] refuses and
    leaves the map as it is at that point. *)
Fixpoint rcodesLoop (tokens : list string) (m : gset Z) : gset Z * option error :=
  match tokens with
  | [] => (m, None)
  | rcode :: tokens' =>
      match rcodeSwitch rcode with
      | Continue => rcodesLoop tokens' m
      | Rc rc => rcodesLoop tokens' ({[ rc ]} ∪ m)
      | AtoiError => (m, Some (errorsNew "invalid rcode value"))
      end
  end.

(** [configureRcodes] mutates [options] and returns an error or nil: the
    result is the options after the call and the returned error. *)
Definition configureRcodes (options : Options) : Options * option error :=
  let options := set_rcodes ∅ options in
  let '(m, err) := rcodesLoop (Split (RCode options)) (rcodes options) in
  let options := set_rcodes m options in
  match err with
  | Some e => (options, Some e)
  | None =>
      let options := set_hasRCodes (negb (String.eqb (RCode options) "")) options in
      let options :=
        if Nat.eqb (size (rcodes options)) 0
        then set_rcodes ({[ 0 ]} ∪ rcodes options) options
        else options in
      (options, None)
  end.

(** [flagSet.Parse] stores the value of the [-rc] flag in [options.RCode]. *)
Definition withRCode (rc : string) (o : Options) : Options :=
  mkOptions (Hosts o) (Domains o) (WordList o) (Silent o) (Verbose o)
    (Version o) (Response o) (ResponseOnly o) (rcodes o) rc (hasRCodes o)
    (Resume o) (resumeCfg o).

(** ** validateOptions *)

(** [stdinMarker] is a constant of another file of the package. *)
Variable stdinMarker : string.

Definition argumentHasStdin (arg : string) : bool := String.eqb arg stdinMarker.

(** Every [gologger.Fatal()] of [validateOptions] ends the process, so the
    function is the message of the first one reached, or [None] when it
    returns. *)
Definition validateOptions (options : Options) : option string :=
  if Response options && ResponseOnly options
  then Some "resp and resp-only can't be used at the same time"
  else
    let wordListPresent := negb (String.eqb (WordList options) "") in
    let domainsPresent := negb (String.eqb (Domains options) "") in
    let hostsPresent := negb (String.eqb (Hosts options) "") in
    if hostsPresent && (wordListPresent || domainsPresent)
    then Some "list(l) flag can not be used domain(d) or wordlist(w) flag"
    else if wordListPresent && negb domainsPresent
    then Some "missing domain(d) flag required with wordlist(w) input"
    else if domainsPresent && negb wordListPresent
    then Some "missing wordlist(w) flag required with domain(d) input"
    else if argumentHasStdin (Domains options) && argumentHasStdin (WordList options)
    then Some "stdin can be set for one flag"
    else None.

(** ** configureOutput *)

Definition configureOutput (options : Options) : list logCall :=
  ((if Verbose options then [SetMaxLevel LevelVerbose] else [])
   ++ (if Silent options then [SetMaxLevel LevelSilent] else []))%list.

(** ** The resume checkpoint *)

(** [fileutil.FileExists] and [goconfig.Load] read the file system; both are
    parameters.  [goconfigLoad p file] is given the checkpoint [p] points to
    and returns what it points to afterwards, with the error of the call. *)
Variable FileExists : string -> bool.
Variable goconfigLoad : option ResumeCfg -> string -> option ResumeCfg * option error.

Definition ShouldLoadResume (options : Options) : bool :=
  Resume options && FileExists DefaultResumeFile.

Definition ShouldSaveResume (options : Options) : bool := true.

Definition configureResume (options : Options) : Options * option error :=
  let options := set_resumeCfg (Some zeroResumeCfg) options in
  if Resume options && FileExists DefaultResumeFile
  then
    let '(cfg, err) := goconfigLoad (resumeCfg options) DefaultResumeFile in
    (set_resumeCfg cfg options, err)
  else (options, None).

(** ** ParseOptions *)

(** The package constant [Version] (the record field has the name here). *)
Variable versionString : string.

(** How a call of [ParseOptions] ends: [os.Exit(code)] or [return options]. *)
Inductive outcome : Type :=
  | Exit (code : Z)
  | Return (options : Options).

(** [ParseOptions] from the point where [flagSet.Parse()] has filled
    [options]: the logger calls made and how the call ends. *)
Definition ParseOptions (options : Options) : list logCall * outcome :=
  let log := configureOutput options in
  let '(options, err) := configureRcodes options in
  match err with
  | Some e => (log ++ [FatalMsg (Error e +:+ newline)], Exit 1)%list
  | None =>
      let '(options, err) := configureResume options in
      match err with
      | Some e => (log ++ [FatalMsg (Error e +:+ newline)], Exit 1)%list
      | None =>
          let log := (log ++ [showBanner])%list in
          if Version options
          then
            (log ++ [InfoMsg ("Current Version: " +:+ versionString +:+ newline)],
             Exit 0)%list
          else
            match validateOptions options with
            | Some msg => (log ++ [FatalMsg msg], Exit 1)%list
            | None => (log, Return options)
            end
      end
  end.

End Runner.

(** [&Options{}]: every field at its zero value (a nil map has no key). *)
Definition zeroOptions {ResumeCfg : Type} : @Options ResumeCfg :=
  mkOptions "" "" "" false false false false false ∅ "" false false None.

(** The options of a command line that gives only the [-rc] flag. *)
Definition rcodeOptions (rc : string) : @Options unit := withRCode rc zeroOptions.

(** ** The vocabulary of the specification *)

(** The canonical symbolic table, as the specification lists it. *)
Definition rcodeTable : list (string * Z) :=
  [ ("noerror", 0); ("formerr", 1); ("servfail", 2); ("nxdomain", 3);
    ("notimp", 4); ("refused", 5); ("yxdomain", 6); ("yxrrset", 7);
    ("nxrrset", 8); ("notauth", 9); ("notzone", 10); ("badsig", 16);
    ("badvers", 16); ("badkey", 17); ("badtime", 18); ("badmode", 19);
    ("badname", 20); ("badalg", 21); ("badtrunc", 22); ("badcookie", 23) ].

(** The code the table lists for a name, if any. *)
Fixpoint tableLookup (table : list (string * Z)) (name : string) : option Z :=
  match table with
  | [] => None
  | (n, code) :: table' =>
      if String.eqb name n then Some code else tableLookup table' name
  end.

(** The decimal-integer grammar: an optional sign, then one digit or more. *)
Fixpoint allDigits (s : string) : bool :=
  match s with
  | EmptyString => true
  | String c s' => (48 <=? byteVal c) && (byteVal c <=? 57) && allDigits s'
  end.

Definition isDecimalInteger (s : string) : bool :=
  match s with
  | EmptyString => false
  | String c rest =>
      if Ascii.eqb c "-" || Ascii.eqb c "+"
      then negb (String.eqb rest "") && allDigits rest
      else allDigits s
  end.

(** Trimming of surrounding white space, as the specification words it
    (space, tab, line feed, vertical tab, form feed, carriage return). *)
Definition isSpace (c : ascii) : bool :=
  (byteVal c =? 32) || ((9 <=? byteVal c) && (byteVal c <=? 13)).

Fixpoint trimLeft (s : string) : string :=
  match s with
  | EmptyString => EmptyString
  | String c s' => if isSpace c then trimLeft s' else s
  end.

Fixpoint trimRight (s : string) : string :=
  match s with
  | EmptyString => EmptyString
  | String c s' =>
      let r := trimRight s' in
      if isSpace c && String.eqb r "" then EmptyString else String c r
  end.

Definition TrimSpace (s : string) : string := trimRight (trimLeft s).

(** A token the specification calls a valid symbolic name: trimmed and
    lower-cased, it is a name of the table. *)
Definition specSymbolic (toLower : string -> string) (tok : string) (code : Z) : Prop :=
  (toLower (TrimSpace tok), code) ∈ rcodeTable.

Section Claims.

Context (unicodeToLower : string -> string) {ResumeCfg : Type}.
Implicit Type options : @Options ResumeCfg.

(** The resolution property with trimming, at one configuration: when every
    token is a valid symbolic name in the sense of [specSymbolic],
    [configureRcodes] succeeds with the union of the mapped codes. *)
Definition resolvesTrimmed options : Prop :=
  (∀ tok, tok ∈ Split (RCode options) →
     ∃ code, specSymbolic (ToLower unicodeToLower) tok code) →
  ∃ options', configureRcodes unicodeToLower options = (options', None)
    ∧ ∀ rc, rc ∈ rcodes options' ↔
        ∃ tok, tok ∈ Split (RCode options)
               ∧ specSymbolic (ToLower unicodeToLower) tok rc.

(** A token that matches neither the table nor the integer grammar. *)
Definition unparsable (tok : string) : Prop :=
  ToLower unicodeToLower tok ≠ ""
  ∧ (∀ code, (ToLower unicodeToLower tok, code) ∉ rcodeTable)
  ∧ isDecimalInteger tok = false.

(** The failure property without a partial set, at one configuration: a bad
    token makes [configureRcodes] fail and the map holds the code of no token
    that precedes it. *)
Definition failsWithoutPartialSet options : Prop :=
  ∀ pre bad post,
    Split (RCode options) = (pre ++ bad :: post)%list → unparsable bad →
    snd (configureRcodes unicodeToLower options)
      = Some (errorsNew "invalid rcode value")
    ∧ ∀ tok rc, tok ∈ pre → rcodeSwitch unicodeToLower tok = Rc rc →
        rc ∉ rcodes (fst (configureRcodes unicodeToLower options)).

(** The non-negative, non-empty set property, at one configuration. *)
Definition yieldsNonNegativeSet options : Prop :=
  ∀ options', configureRcodes unicodeToLower options = (options', None) →
    rcodes options' ≠ ∅
    ∧ (∀ rc, rc ∈ rcodes options' → 0 ≤ rc)
    ∧ ((∀ t, t ∈ Split (RCode options) → t = "") → rcodes options' = {[ 0 ]}).

End Claims.

(** The five rules of the input-mode validator, in the order of the
    specification, each with the message the code reports for it. *)
Definition populated (s : string) : bool := negb (String.eqb s "").

Definition validationRules {ResumeCfg : Type} (stdinMarker : string)
  : list ((@Options ResumeCfg -> bool) * string) :=
  [ (fun o => Response o && ResponseOnly o,
     "resp and resp-only can't be used at the same time");
    (fun o => populated (Hosts o) && (populated (WordList o) || populated (Domains o)),
     "list(l) flag can not be used domain(d) or wordlist(w) flag");
    (fun o => populated (WordList o) && negb (populated (Domains o)),
     "missing domain(d) flag required with wordlist(w) input");
    (fun o => populated (Domains o) && negb (populated (WordList o)),
     "missing wordlist(w) flag required with domain(d) input");
    (fun o => String.eqb (Domains o) stdinMarker && String.eqb (WordList o) stdinMarker,
     "stdin can be set for one flag") ].

(** The message of the first rule that [o] violates. *)
Fixpoint firstViolation {A : Type} (rules : list ((A -> bool) * string)) (o : A)
  : option string :=
  match rules with
  | [] => None
  | (violated, msg) :: rules' =>
      if violated o then Some msg else firstViolation rules' o
  end.

(** [SetMaxLevel] assigns the maximum level of the logger: after a sequence
    of calls the level is that of the last [SetMaxLevel], or the level [l] the
    logger had before when there is none. *)
Fixpoint maxLevelAfter (log : list logCall) (l : option Level) : option Level :=
  match log with
  | [] => l
  | SetMaxLevel l' :: log' => maxLevelAfter log' (Some l')
  | _ :: log' => maxLevelAfter log' l
  end.

(** * Properties *)

(** Membership in the fields of a concrete string, by evaluation. *)
Ltac fields_in H :=
  match type of H with
  | _ ∈ Split ?s =>
      let l := eval vm_compute in (Split s) in
      change (Split s) with l in H;
      repeat (apply elem_of_cons in H as [->|H]); [..|inversion H]
  end.


(** ** Strings, the table and [Atoi] *)

Lemma Split_cons (s : string) : Split s = fst (splitComma s) :: snd (splitComma s).
Proof. unfold Split. destruct (splitComma s); reflexivity. Qed.

Lemma Split_String (c : ascii) (s : string) :
  Split (String c s) =
    if Ascii.eqb c "," then EmptyString :: Split s
    else String c (fst (splitComma s)) :: snd (splitComma s).
Proof.
  rewrite !Split_cons. simpl. destruct (splitComma s) as [t ts].
  destruct (Ascii.eqb c ","); reflexivity.
Qed.

Lemma splitComma_join (a b : string) :
  splitComma (a +:+ "," +:+ b) =
    (fst (splitComma a), (snd (splitComma a) ++ Split b)%list).
Proof.
  induction a as [|c a IH].
  - change ("" +:+ "," +:+ b) with (String "," b).
    simpl. rewrite Split_cons. destruct (splitComma b); reflexivity.
  - change (String c a +:+ "," +:+ b) with (String c (a +:+ "," +:+ b)).
    simpl. rewrite IH. destruct (splitComma a) as [t ts]. simpl.
    destruct (Ascii.eqb c ","); reflexivity.
Qed.

(** [Split] of two strings joined by a comma is the fields of the first
    followed by the fields of the second. *)
Lemma Split_join (a b : string) :
  Split (a +:+ "," +:+ b) = (Split a ++ Split b)%list.
Proof.
  rewrite (Split_cons (a +:+ "," +:+ b)), splitComma_join, (Split_cons a).
  reflexivity.
Qed.

Lemma tableLookup_Some (table : list (string * Z)) (name : string) (code : Z) :
  tableLookup table name = Some code → (name, code) ∈ table.
Proof.
  induction table as [|[n c] table IH]; simpl; [discriminate|].
  destruct (String.eqb_spec name n) as [->|_].
  - intros [= ->]. left.
  - intros H. right. auto.
Qed.

Lemma tableLookup_None (table : list (string * Z)) (name : string) :
  tableLookup table name = None → ∀ code, (name, code) ∉ table.
Proof.
  induction table as [|[n c] table IH]; simpl; intros H code Hin.
  - inversion Hin.
  - destruct (String.eqb_spec name n) as [->|Hne]; [discriminate|].
    apply elem_of_cons in Hin as [[= -> ->]|Hin]; [congruence|].
    exact (IH H code Hin).
Qed.

(** Every entry of the table is the one [tableLookup] finds: the two names
    of code 16 apart, no name is listed twice. *)
Lemma tableLookup_elem (name : string) (code : Z) :
  (name, code) ∈ rcodeTable → tableLookup rcodeTable name = Some code.
Proof.
  unfold rcodeTable. intros Hin.
  repeat (apply elem_of_cons in Hin as [[= -> ->]|Hin]; [reflexivity|]).
  inversion Hin.
Qed.

Lemma rcodeTable_range (name : string) (code : Z) :
  (name, code) ∈ rcodeTable → name ≠ "" ∧ 0 ≤ code ≤ 23.
Proof.
  unfold rcodeTable. intros Hin.
  repeat (apply elem_of_cons in Hin as [[= -> ->]|Hin]; [split; [discriminate|lia]|]).
  inversion Hin.
Qed.

Lemma parseDigits_ge (s : string) (n m : Z) :
  0 ≤ n → parseDigits s n = Some m → 0 ≤ m.
Proof.
  revert n. induction s as [|c s IH]; simpl; intros n Hn.
  - intros [= <-]. exact Hn.
  - unfold digitVal.
    destruct ((48 <=? byteVal c) && (byteVal c <=? 57)) eqn:Hd; [|discriminate].
    apply andb_true_iff in Hd as [H1 H2].
    apply Z.leb_le in H1. apply IH. lia.
Qed.

Lemma parseDigits_allDigits (s : string) (n m : Z) :
  parseDigits s n = Some m → allDigits s = true.
Proof.
  revert n. induction s as [|c s IH]; simpl; intros n; [reflexivity|].
  unfold digitVal.
  destruct ((48 <=? byteVal c) && (byteVal c <=? 57)); [|discriminate].
  intros H. simpl. eauto.
Qed.

(** What [Atoi] accepts is in the grammar and in the range of [int]; a
    negative value comes from a token that starts with a minus sign. *)
Lemma Atoi_Some (s : string) (n : Z) :
  Atoi s = Some n →
  isDecimalInteger s = true ∧ minInt ≤ n ≤ maxInt
  ∧ (n < 0 → ∃ rest, s = String "-" rest).
Proof.
  destruct s as [|s0 rest]; [discriminate|].
  unfold Atoi, isDecimalInteger.
  destruct (Ascii.eqb_spec s0 "-") as [->|Hm]; simpl orb; cbv iota.
  - destruct rest as [|c rest]; [discriminate|].
    destruct (parseDigits (String c rest) 0) as [m|] eqn:Hp; [|discriminate].
    destruct ((minInt <=? - m) && (- m <=? maxInt)) eqn:Hr; [|discriminate].
    intros [= <-]. apply andb_true_iff in Hr as [H1 H2].
    apply Z.leb_le in H1. apply Z.leb_le in H2.
    split; [|split; [lia|eauto]].
    change (String.eqb (String c rest) "") with false.
    exact (parseDigits_allDigits _ _ _ Hp).
  - destruct (Ascii.eqb_spec s0 "+") as [->|Hp']; cbv iota.
    + destruct rest as [|c rest]; [discriminate|].
      destruct (parseDigits (String c rest) 0) as [m|] eqn:Hp; [|discriminate].
      change (Ascii.eqb "+" "-") with false. cbv iota.
      destruct ((minInt <=? m) && (m <=? maxInt)) eqn:Hr; [|discriminate].
      intros [= <-]. apply andb_true_iff in Hr as [H1 H2].
      apply Z.leb_le in H1. apply Z.leb_le in H2.
      split; [|split; [lia|]].
      * change (String.eqb (String c rest) "") with false.
        exact (parseDigits_allDigits _ _ _ Hp).
      * intros Hneg. pose proof (parseDigits_ge _ 0 m ltac:(lia) Hp). lia.
    + destruct (parseDigits (String s0 rest) 0) as [m|] eqn:Hp; [|discriminate].
      destruct ((minInt <=? m) && (m <=? maxInt)) eqn:Hr; [|discriminate].
      intros [= <-]. apply andb_true_iff in Hr as [H1 H2].
      apply Z.leb_le in H1. apply Z.leb_le in H2.
      split; [|split; [lia|]].
      * exact (parseDigits_allDigits _ _ _ Hp).
      * intros Hneg. pose proof (parseDigits_ge _ 0 m ltac:(lia) Hp). lia.
Qed.

(** ** The rcode filter *)

Section RcodeProperties.

Context (unicodeToLower : string -> string) {ResumeCfg : Type}.
Implicit Type options : @Options ResumeCfg.

Local Abbreviation ToLower := (ToLower unicodeToLower).
Local Abbreviation rcodeSwitch := (rcodeSwitch unicodeToLower).
Local Abbreviation rcodesLoop := (rcodesLoop unicodeToLower).
Local Abbreviation configureRcodes := (configureRcodes unicodeToLower).

Lemma ToLower_empty : ToLower "" = "".
Proof. reflexivity. Qed.

(** The switch, read as a lookup in the table of the specification. *)
Lemma rcodeSwitch_cases (rcode : string) :
  rcodeSwitch rcode =
    if String.eqb (ToLower rcode) "" then Continue
    else match tableLookup rcodeTable (ToLower rcode) with
         | Some rc => Rc rc
         | None => match Atoi rcode with Some rc => Rc rc | None => AtoiError end
         end.
Proof.
  unfold rcodeSwitch, rcodeTable, tableLookup.
  generalize (ToLower rcode) as tag. intros tag.
  repeat (destruct (String.eqb tag _); [reflexivity|]; simpl orb; cbv iota).
  reflexivity.
Qed.

Lemma rcodeSwitch_table (tok name : string) (code : Z) :
  (name, code) ∈ rcodeTable → ToLower tok = name → rcodeSwitch tok = Rc code.
Proof.
  intros Hin Hlow. rewrite rcodeSwitch_cases, Hlow.
  destruct (rcodeTable_range _ _ Hin) as [Hne _].
  destruct (String.eqb_spec name ""); [contradiction|].
  rewrite (tableLookup_elem _ _ Hin). reflexivity.
Qed.

Lemma rcodeSwitch_Continue (tok : string) :
  rcodeSwitch tok = Continue ↔ ToLower tok = "".
Proof.
  rewrite rcodeSwitch_cases.
  destruct (String.eqb_spec (ToLower tok) "") as [He|Hne]; [tauto|].
  split; [|contradiction].
  destruct (tableLookup rcodeTable (ToLower tok)); [discriminate|].
  destruct (Atoi tok); discriminate.
Qed.

Lemma rcodeSwitch_Rc (tok : string) (rc : Z) :
  rcodeSwitch tok = Rc rc →
  (ToLower tok, rc) ∈ rcodeTable ∨ Atoi tok = Some rc.
Proof.
  rewrite rcodeSwitch_cases.
  destruct (String.eqb (ToLower tok) ""); [discriminate|].
  destruct (tableLookup rcodeTable (ToLower tok)) as [c|] eqn:Ht.
  - intros [= <-]. left. exact (tableLookup_Some _ _ _ Ht).
  - destruct (Atoi tok) as [v|]; [|discriminate]. intros [= <-]. right. reflexivity.
Qed.

Lemma rcodeSwitch_unparsable (tok : string) :
  unparsable unicodeToLower tok → rcodeSwitch tok = AtoiError.
Proof.
  intros (Hne & Htab & Hdec). rewrite rcodeSwitch_cases.
  destruct (String.eqb_spec (ToLower tok) ""); [contradiction|].
  destruct (tableLookup rcodeTable (ToLower tok)) as [c|] eqn:Ht.
  - exfalso. exact (Htab c (tableLookup_Some _ _ _ Ht)).
  - destruct (Atoi tok) as [v|] eqn:Ha; [|reflexivity].
    apply Atoi_Some in Ha as [Hd _]. congruence.
Qed.

(** The loop: when it runs to the end no token was refused and the map has
    gained the codes of the tokens; when it stops, it stops at the first
    refused token with the codes of the tokens before it. *)
Lemma rcodesLoop_spec (tokens : list string) (m : gset Z) :
  match rcodesLoop tokens m with
  | (m', None) =>
      (∀ t, t ∈ tokens → rcodeSwitch t ≠ AtoiError)
      ∧ ∀ rc, rc ∈ m' ↔ rc ∈ m ∨ ∃ t, t ∈ tokens ∧ rcodeSwitch t = Rc rc
  | (m', Some e) =>
      e = errorsNew "invalid rcode value"
      ∧ ∃ pre bad post,
          tokens = (pre ++ bad :: post)%list
          ∧ rcodeSwitch bad = AtoiError
          ∧ (∀ t, t ∈ pre → rcodeSwitch t ≠ AtoiError)
          ∧ ∀ rc, rc ∈ m' ↔ rc ∈ m ∨ ∃ t, t ∈ pre ∧ rcodeSwitch t = Rc rc
  end.
Proof.
  revert m. induction tokens as [|tok tokens IH]; intros m; simpl.
  - split; [intros t Ht; inversion Ht|].
    intros rc. split; [auto|]. intros [H|(t & Ht & _)]; [exact H|inversion Ht].
  - destruct (rcodeSwitch tok) as [|c|] eqn:Hsw.
    + specialize (IH m). destruct (rcodesLoop tokens m) as [m' [e|]].
      * destruct IH as (-> & pre & bad & post & -> & Hbad & Hpre & Hm).
        split; [reflexivity|]. exists (tok :: pre), bad, post.
        split; [reflexivity|]. split; [exact Hbad|]. split.
        -- intros t Ht. apply elem_of_cons in Ht as [->|Ht]; [congruence|auto].
        -- intros rc. rewrite Hm. split; intros [H|(t & Ht & Hrc)]; auto.
           ++ right. exists t. split; [right; exact Ht|exact Hrc].
           ++ apply elem_of_cons in Ht as [->|Ht]; [congruence|]. right. eauto.
      * destruct IH as (Hall & Hm). split.
        -- intros t Ht. apply elem_of_cons in Ht as [->|Ht]; [congruence|auto].
        -- intros rc. rewrite Hm. split; intros [H|(t & Ht & Hrc)]; auto.
           ++ right. exists t. split; [right; exact Ht|exact Hrc].
           ++ apply elem_of_cons in Ht as [->|Ht]; [congruence|]. right. eauto.
    + specialize (IH ({[c]} ∪ m)). destruct (rcodesLoop tokens ({[c]} ∪ m)) as [m' [e|]].
      * destruct IH as (-> & pre & bad & post & -> & Hbad & Hpre & Hm).
        split; [reflexivity|]. exists (tok :: pre), bad, post.
        split; [reflexivity|]. split; [exact Hbad|]. split.
        -- intros t Ht. apply elem_of_cons in Ht as [->|Ht]; [congruence|auto].
        -- intros rc. rewrite Hm, elem_of_union, elem_of_singleton.
           split.
           ++ intros [[->|H]|(t & Ht & Hrc)]; auto.
              ** right. exists tok. split; [left|exact Hsw].
              ** right. exists t. split; [right; exact Ht|exact Hrc].
           ++ intros [H|(t & Ht & Hrc)]; auto.
              apply elem_of_cons in Ht as [->|Ht]; [left; left; congruence|].
              right. eauto.
      * destruct IH as (Hall & Hm). split.
        -- intros t Ht. apply elem_of_cons in Ht as [->|Ht]; [congruence|auto].
        -- intros rc. rewrite Hm, elem_of_union, elem_of_singleton.
           split.
           ++ intros [[->|H]|(t & Ht & Hrc)]; auto.
              ** right. exists tok. split; [left|exact Hsw].
              ** right. exists t. split; [right; exact Ht|exact Hrc].
           ++ intros [H|(t & Ht & Hrc)]; auto.
              apply elem_of_cons in Ht as [->|Ht]; [left; left; congruence|].
              right. eauto.
    + split; [reflexivity|]. exists [], tok, tokens.
      split; [reflexivity|]. split; [exact Hsw|]. split.
      * intros t Ht. inversion Ht.
      * intros rc. split; [auto|]. intros [H|(t & Ht & _)]; [exact H|inversion Ht].
Qed.

(** [configureRcodes] in one equation: the map starts empty, whatever
    [options.rcodes] held before the call. *)
Lemma configureRcodes_eq options :
  configureRcodes options =
    match rcodesLoop (Split (RCode options)) ∅ with
    | (m, Some e) => (set_rcodes m options, Some e)
    | (m, None) =>
        (set_rcodes (if Nat.eqb (size m) 0 then {[0]} ∪ m else m)
           (set_hasRCodes (negb (String.eqb (RCode options) "")) options),
         None)
    end.
Proof.
  unfold configureRcodes. destruct options; simpl.
  destruct (rcodesLoop _ _) as [m [e|]]; simpl; [reflexivity|].
  destruct (Nat.eqb (size m) 0); reflexivity.
Qed.


Lemma configureRcodes_ok options options' :
  configureRcodes options = (options', None) →
  (∀ t, t ∈ Split (RCode options) → rcodeSwitch t ≠ AtoiError)
  ∧ hasRCodes options' = negb (String.eqb (RCode options) "")
  ∧ ∀ rc, rc ∈ rcodes options' ↔
      (∃ t, t ∈ Split (RCode options) ∧ rcodeSwitch t = Rc rc)
      ∨ (rc = 0 ∧ ∀ t, t ∈ Split (RCode options) → rcodeSwitch t = Continue).
Proof.
  rewrite configureRcodes_eq.
  pose proof (rcodesLoop_spec (Split (RCode options)) ∅) as Hloop.
  destruct (rcodesLoop (Split (RCode options)) ∅) as [m [e|]]; [discriminate|].
  destruct Hloop as [Hall Hm]. intros [= <-].
  split; [exact Hall|]. split; [destruct options; reflexivity|].
  assert (Hm' : ∀ rc, rc ∈ m ↔ ∃ t, t ∈ Split (RCode options) ∧ rcodeSwitch t = Rc rc).
  { intros rc. rewrite Hm. split; [intros [H|H]; [set_solver|exact H]|auto]. }
  clear Hm. intros rc.
  replace (rcodes (set_rcodes _ _)) with (if Nat.eqb (size m) 0 then {[0]} ∪ m else m)
    by (destruct options; reflexivity).
  destruct (Nat.eqb_spec (size m) 0) as [Hsz|Hsz].
  - apply size_empty_iff in Hsz. apply leibniz_equiv in Hsz. subst m.
    rewrite elem_of_union, elem_of_singleton. split.
    + intros [->|H]; [|set_solver]. right. split; [reflexivity|].
      intros t Ht. specialize (Hall t Ht).
      destruct (rcodeSwitch t) as [|c|] eqn:Hsw; [reflexivity| |congruence].
      exfalso. apply (not_elem_of_empty (C:=gset Z) c). apply Hm'. eauto.
    + intros [H|[-> _]]; [|auto]. right. apply Hm'. exact H.
  - rewrite Hm'. split; [auto|]. intros [H|[-> Hcont]]; [exact H|].
    exfalso. apply Hsz. apply size_empty_iff. apply equiv_empty.
    intros c Hc. apply Hm' in Hc as (t & Ht & Hsw).
    rewrite (Hcont t Ht) in Hsw. discriminate.
Qed.

Lemma configureRcodes_succeeds options :
  (∀ t, t ∈ Split (RCode options) → rcodeSwitch t ≠ AtoiError) →
  ∃ options', configureRcodes options = (options', None).
Proof.
  intros Hall. rewrite configureRcodes_eq.
  pose proof (rcodesLoop_spec (Split (RCode options)) ∅) as Hloop.
  destruct (rcodesLoop (Split (RCode options)) ∅) as [m [e|]]; [|eauto].
  destruct Hloop as (_ & pre & bad & post & Hsplit & Hbad & _).
  exfalso. apply (Hall bad); [|exact Hbad].
  rewrite Hsplit. apply elem_of_app. right. left.
Qed.

Lemma configureRcodes_nonempty options options' :
  configureRcodes options = (options', None) → rcodes options' ≠ ∅.
Proof.
  rewrite configureRcodes_eq.
  destruct (rcodesLoop (Split (RCode options)) ∅) as [m [e|]]; [discriminate|].
  intros [= <-].
  replace (rcodes (set_rcodes _ _)) with (if Nat.eqb (size m) 0 then {[0]} ∪ m else m)
    by (destruct options; reflexivity).
  destruct (Nat.eqb_spec (size m) 0) as [Hsz|Hsz].
  - intros He. apply (not_elem_of_empty (C:=gset Z) 0). rewrite <- He.
    apply elem_of_union. left. apply elem_of_singleton. reflexivity.
  - intros ->. apply Hsz. apply size_empty.
Qed.

Lemma Split_nonempty (s : string) : ∃ t, t ∈ Split s.
Proof. rewrite Split_cons. eexists. left. Qed.

(** C1: a token that lower-cases to a name of the symbolic table resolves
    to the code listed for that name: the switch yields that code, a
    successful [configureRcodes] has it in the set, and a string that is
    this one token yields the singleton of the code.  The string
    "noerror,nxdomain" yields {0, 3}; "badsig,badvers" yields {16}. *)
Theorem C1_symbolic_table options (tok name : string) (code : Z) :
  (name, code) ∈ rcodeTable → ToLower tok = name →
  rcodeSwitch tok = Rc code
  ∧ (∀ options', tok ∈ Split (RCode options) →
       configureRcodes options = (options', None) → code ∈ rcodes options')
  ∧ (Split (RCode options) = [tok] →
       ∃ options', configureRcodes options = (options', None)
                   ∧ rcodes options' = {[ code ]})
  ∧ configureRcodes (withRCode "noerror,nxdomain" options)
      = (set_rcodes {[ 0; 3 ]}
           (set_hasRCodes true (withRCode "noerror,nxdomain" options)), None)
  ∧ configureRcodes (withRCode "badsig,badvers" options)
      = (set_rcodes {[ 16 ]}
           (set_hasRCodes true (withRCode "badsig,badvers" options)), None).
Proof.
  intros Hin Hlow. pose proof (rcodeSwitch_table _ _ _ Hin Hlow) as Hsw.
  split; [exact Hsw|]. split; [|split; [|split]].
  - intros options' Htok Hok. apply configureRcodes_ok in Hok as (_ & _ & Hm).
    apply Hm. left. eauto.
  - intros Hsplit. destruct (configureRcodes_succeeds options) as [options' Hok].
    { intros t Ht. rewrite Hsplit in Ht. apply list_elem_of_singleton in Ht as ->.
      congruence. }
    exists options'. split; [exact Hok|].
    apply configureRcodes_ok in Hok as (_ & _ & Hm).
    apply set_eq. intros rc. rewrite Hm, elem_of_singleton, Hsplit. split.
    + intros [(t & Ht & Ht')|[_ Hc]].
      * apply list_elem_of_singleton in Ht as ->. congruence.
      * specialize (Hc tok ltac:(left)). congruence.
    + intros ->. left. exists tok. split; [left|exact Hsw].
  - vm_compute. reflexivity.
  - vm_compute. reflexivity.
Qed.

(** C2 (amended): tokens are lower-cased but not trimmed.  When every token
    of the string lower-cases to a name of the table, [configureRcodes]
    succeeds and the set is the union of the codes listed for the tokens. *)
Theorem C2_union_of_codes options :
  (∀ tok, tok ∈ Split (RCode options) → ∃ code, (ToLower tok, code) ∈ rcodeTable) →
  ∃ options', configureRcodes options = (options', None)
    ∧ ∀ rc, rc ∈ rcodes options' ↔
        ∃ tok, tok ∈ Split (RCode options) ∧ (ToLower tok, rc) ∈ rcodeTable.
Proof.
  intros Hval.
  assert (Hsw : ∀ t, t ∈ Split (RCode options) →
            ∃ code, (ToLower t, code) ∈ rcodeTable ∧ rcodeSwitch t = Rc code).
  { intros t Ht. destruct (Hval t Ht) as [code Hc]. exists code.
    split; [exact Hc|]. exact (rcodeSwitch_table _ _ _ Hc eq_refl). }
  destruct (configureRcodes_succeeds options) as [options' Hok].
  { intros t Ht. destruct (Hsw t Ht) as (code & _ & Heq). congruence. }
  exists options'. split; [exact Hok|].
  apply configureRcodes_ok in Hok as (_ & _ & Hm).
  intros rc. rewrite Hm. split.
  - intros [(t & Ht & Hrc)|[_ Hc]].
    + exists t. split; [exact Ht|].
      destruct (Hsw t Ht) as (code & Hc & Heq).
      rewrite Heq in Hrc. injection Hrc as <-. exact Hc.
    + destruct (Split_nonempty (RCode options)) as [t Ht].
      destruct (Hsw t Ht) as (code & _ & Heq).
      rewrite (Hc t Ht) in Heq. discriminate.
  - intros (t & Ht & Hc). left. exists t. split; [exact Ht|].
    exact (rcodeSwitch_table _ _ _ Hc eq_refl).
Qed.

(** C3 (amended): a token that is not empty after lower-casing, is no name
    of the table and is outside the integer grammar makes [configureRcodes]
    return the invalid-rcode error.  The call stops at the first token that
    [Atoi] refuses: [hasRCodes] keeps its value and the map holds the codes
    of the tokens before that token. *)
Theorem C3_invalid_token options (tok : string) :
  tok ∈ Split (RCode options) → unparsable unicodeToLower tok →
  ∃ options' pre bad post,
    configureRcodes options = (options', Some (errorsNew "invalid rcode value"))
    ∧ Split (RCode options) = (pre ++ bad :: post)%list
    ∧ rcodeSwitch bad = AtoiError
    ∧ (∀ t, t ∈ pre → rcodeSwitch t ≠ AtoiError)
    ∧ hasRCodes options' = hasRCodes options
    ∧ ∀ rc, rc ∈ rcodes options' ↔ ∃ t, t ∈ pre ∧ rcodeSwitch t = Rc rc.
Proof.
  intros Htok Hbad. apply rcodeSwitch_unparsable in Hbad.
  rewrite configureRcodes_eq.
  pose proof (rcodesLoop_spec (Split (RCode options)) ∅) as Hloop.
  destruct (rcodesLoop (Split (RCode options)) ∅) as [m [e|]].
  - destruct Hloop as (-> & pre & bad & post & Hsplit & Hsw & Hpre & Hm).
    exists (set_rcodes m options), pre, bad, post.
    repeat split; try assumption; try (destruct options; reflexivity).
    + replace (rcodes (set_rcodes m options)) with m by (destruct options; reflexivity).
      intros H. apply Hm in H as [H|H]; [set_solver|exact H].
    + replace (rcodes (set_rcodes m options)) with m by (destruct options; reflexivity).
      intros H. apply Hm. right. exact H.
  - destruct Hloop as [Hall _]. exfalso. exact (Hall tok Htok Hbad).
Qed.

(** C4 (amended): after a successful call the set is never empty and its
    members are in the range of [int]; a member is negative only as the
    value of a token that is a minus-signed decimal literal; when every
    token is empty the set is {0}. *)
Theorem C4_nonempty_set options options' :
  configureRcodes options = (options', None) →
  rcodes options' ≠ ∅
  ∧ (∀ rc, rc ∈ rcodes options' →
       minInt ≤ rc ≤ maxInt
       ∧ (rc < 0 → ∃ rest, String "-" rest ∈ Split (RCode options)
                           ∧ Atoi (String "-" rest) = Some rc))
  ∧ ((∀ t, t ∈ Split (RCode options) → t = "") → rcodes options' = {[ 0 ]}).
Proof.
  intros Hok0. pose proof (configureRcodes_ok _ _ Hok0) as (Hall & _ & Hm).
  split; [|split].
  - exact (configureRcodes_nonempty _ _ Hok0).
  - intros rc Hrc. apply Hm in Hrc as [(t & Ht & Hsw)|[-> _]].
    + apply rcodeSwitch_Rc in Hsw as [Htab|Ha].
      * apply rcodeTable_range in Htab as [_ Hr]. unfold minInt, maxInt, intSize. lia.
      * destruct (Atoi_Some _ _ Ha) as (_ & Hr & Hneg). split; [exact Hr|].
        intros Hlt. destruct (Hneg Hlt) as [rest ->]. eauto.
    + unfold minInt, maxInt, intSize. lia.
  - intros Hemp. apply set_eq. intros rc. rewrite Hm, elem_of_singleton. split.
    + intros [(t & Ht & Hsw)|[-> _]]; [|reflexivity].
      rewrite (Hemp t Ht) in Hsw. vm_compute in Hsw. discriminate.
    + intros ->. right. split; [reflexivity|].
      intros t Ht. rewrite (Hemp t Ht). reflexivity.
Qed.

(** C5: after a successful call [hasRCodes] is true exactly when the input
    string is not empty, whatever it resolved to: "," resolves no token and
    gives {0} with [hasRCodes] true, the empty string gives {0} with
    [hasRCodes] false. *)
Theorem C5_hasRCodes options options' :
  configureRcodes options = (options', None) →
  (hasRCodes options' = true ↔ RCode options ≠ "")
  ∧ configureRcodes (withRCode "," options)
      = (set_rcodes {[ 0 ]} (set_hasRCodes true (withRCode "," options)), None)
  ∧ configureRcodes (withRCode "" options)
      = (set_rcodes {[ 0 ]} (set_hasRCodes false (withRCode "" options)), None).
Proof.
  intros Hok. apply configureRcodes_ok in Hok as (_ & Hhas & _).
  split; [|split; vm_compute; reflexivity].
  rewrite Hhas. destruct (String.eqb_spec (RCode options) ""); simpl; split; congruence.
Qed.

(** C10: the set after a successful call depends only on the set of the
    tokens of the input string, not on their order or repetition: two
    strings with the same tokens give the same set, so "x,x" gives the set
    of "x" and "b,a" the set of "a,b", for any strings x, a and b. *)
Theorem C10_token_set_semantics options1 options2 options1' :
  (∀ t, t ∈ Split (RCode options1) ↔ t ∈ Split (RCode options2)) →
  configureRcodes options1 = (options1', None) →
  (∃ options2', configureRcodes options2 = (options2', None)
                ∧ rcodes options2' = rcodes options1')
  ∧ (∀ (x : string) options',
       configureRcodes (withRCode x options1) = (options', None) →
       ∃ options'', configureRcodes (withRCode (x +:+ "," +:+ x) options1)
                      = (options'', None)
                    ∧ rcodes options'' = rcodes options')
  ∧ (∀ (a b : string) options',
       configureRcodes (withRCode (a +:+ "," +:+ b) options1) = (options', None) →
       ∃ options'', configureRcodes (withRCode (b +:+ "," +:+ a) options1)
                      = (options'', None)
                    ∧ rcodes options'' = rcodes options').
Proof.
  assert (Hgen : ∀ o1 o2 o1' : @Options ResumeCfg,
            (∀ t, t ∈ Split (RCode o1) ↔ t ∈ Split (RCode o2)) →
            configureRcodes o1 = (o1', None) →
            ∃ o2', configureRcodes o2 = (o2', None) ∧ rcodes o2' = rcodes o1').
  { intros o1 o2 o1' Hset H1.
    apply configureRcodes_ok in H1 as (Hall1 & _ & Hm1).
    destruct (configureRcodes_succeeds o2) as [o2' H2].
    { intros t Ht. apply Hall1, Hset, Ht. }
    exists o2'. split; [exact H2|].
    apply configureRcodes_ok in H2 as (_ & _ & Hm2).
    apply set_eq. intros rc. rewrite Hm1, Hm2.
    split; (intros [(t & Ht & Hsw)|[-> Hc]];
      [left; exists t; split; [apply Hset, Ht|exact Hsw]
      |right; split; [reflexivity|intros t Ht; apply Hc, Hset, Ht]]). }
  intros Hset Hok. split; [exact (Hgen _ _ _ Hset Hok)|]. split.
  - intros x options'. apply Hgen. intros t.
    change (RCode (withRCode x options1)) with x.
    change (RCode (withRCode (x +:+ "," +:+ x) options1)) with (x +:+ "," +:+ x).
    rewrite Split_join, elem_of_app. tauto.
  - intros a b options'. apply Hgen. intros t.
    change (RCode (withRCode (a +:+ "," +:+ b) options1)) with (a +:+ "," +:+ b).
    change (RCode (withRCode (b +:+ "," +:+ a) options1)) with (b +:+ "," +:+ a).
    rewrite !Split_join, !elem_of_app. tauto.
Qed.

End RcodeProperties.

(** ** Validation, resume and sequencing *)

Lemma firstViolation_None {A : Type} (rules : list ((A -> bool) * string)) (o : A) :
  firstViolation rules o = None ↔ ∀ r, r ∈ rules → fst r o = false.
Proof.
  induction rules as [|[violated msg] rules IH]; simpl.
  - split; [intros _ r Hr; inversion Hr|reflexivity].
  - destruct (violated o) eqn:Hv.
    + split; [discriminate|]. intros H.
      specialize (H (violated, msg) ltac:(left)). simpl in H. congruence.
    + rewrite IH. split.
      * intros H r Hr. apply elem_of_cons in Hr as [->|Hr]; [exact Hv|auto].
      * intros H r Hr. apply H. right. exact Hr.
Qed.

(** The message found is that of a violated rule which no violated rule
    precedes. *)
Lemma firstViolation_Some {A : Type} (rules : list ((A -> bool) * string)) (o : A)
    (msg : string) :
  firstViolation rules o = Some msg ↔
    ∃ before violated after,
      rules = (before ++ (violated, msg) :: after)%list
      ∧ violated o = true
      ∧ ∀ r, r ∈ before → fst r o = false.
Proof.
  induction rules as [|[v m] rules IH]; simpl.
  - split; [discriminate|]. intros (before & violated & after & H & _).
    destruct before; discriminate.
  - destruct (v o) eqn:Hv.
    + split.
      * intros [= ->]. exists [], v, rules. split; [reflexivity|].
        split; [exact Hv|]. intros r Hr. inversion Hr.
      * intros (before & violated & after & Heq & Hviol & Hbefore).
        destruct before as [|b before]; simpl in Heq.
        -- injection Heq as -> -> _. reflexivity.
        -- injection Heq as Hb _. subst b. specialize (Hbefore (v, m) ltac:(left)).
           simpl in Hbefore. congruence.
    + rewrite IH. split.
      * intros (before & violated & after & -> & Hviol & Hbefore).
        exists ((v, m) :: before), violated, after. split; [reflexivity|].
        split; [exact Hviol|]. intros r Hr.
        apply elem_of_cons in Hr as [->|Hr]; [exact Hv|auto].
      * intros (before & violated & after & Heq & Hviol & Hbefore).
        destruct before as [|b before]; simpl in Heq.
        -- injection Heq as -> -> _. congruence.
        -- injection Heq as Hb Hrules. subst b rules.
           exists before, violated, after.
           split; [reflexivity|]. split; [exact Hviol|].
           intros r Hr. apply Hbefore. right. exact Hr.
Qed.

Section RunnerProperties.

Context (unicodeToLower : string -> string) {ResumeCfg : Type}
        (zeroResumeCfg : ResumeCfg) (stdinMarker : string)
        (FileExists : string -> bool)
        (goconfigLoad : option ResumeCfg -> string -> option ResumeCfg * option error)
        (versionString : string).
Implicit Type options : @Options ResumeCfg.

Local Abbreviation configureRcodes := (configureRcodes unicodeToLower).
Local Abbreviation validateOptions := (validateOptions stdinMarker).
Local Abbreviation ShouldLoadResume := (ShouldLoadResume FileExists).
Local Abbreviation configureResume :=
  (configureResume zeroResumeCfg FileExists goconfigLoad).
Local Abbreviation ParseOptions :=
  (ParseOptions unicodeToLower zeroResumeCfg stdinMarker FileExists goconfigLoad
     versionString).

Lemma validateOptions_firstViolation options :
  validateOptions options = firstViolation (validationRules stdinMarker) options.
Proof.
  unfold validateOptions, validationRules, firstViolation,
    argumentHasStdin, populated.
  destruct (Response options && ResponseOnly options); [reflexivity|].
  destruct (negb (String.eqb (Hosts options) "")
            && (negb (String.eqb (WordList options) "")
                || negb (String.eqb (Domains options) ""))); [reflexivity|].
  destruct (negb (String.eqb (WordList options) "")
            && negb (negb (String.eqb (Domains options) ""))); [reflexivity|].
  destruct (negb (String.eqb (Domains options) "")
            && negb (negb (String.eqb (WordList options) ""))); [reflexivity|].
  reflexivity.
Qed.

(** The two configuration steps leave the flags of the command line alone. *)
Lemma configureRcodes_Version options :
  Version (fst (configureRcodes options)) = Version options.
Proof.
  rewrite configureRcodes_eq.
  destruct (rcodesLoop _ _ _) as [m [e|]]; destruct options; reflexivity.
Qed.

Lemma configureResume_Version options :
  Version (fst (configureResume options)) = Version options.
Proof.
  unfold configureResume. destruct options; simpl.
  destruct (Resume0 && FileExists DefaultResumeFile); [|reflexivity].
  destruct (goconfigLoad _ _); reflexivity.
Qed.

(** C6: [validateOptions] reports the message of the first of the five
    rules, in their order, that the configuration violates; it returns
    silently exactly when no rule is violated; the five messages differ. *)
Theorem C6_first_violation_wins options :
  validateOptions options = firstViolation (validationRules stdinMarker) options
  ∧ (validateOptions options = None ↔
       ∀ r, r ∈ validationRules stdinMarker → fst r options = false)
  ∧ (∀ msg, validateOptions options = Some msg ↔
       ∃ before violated after,
         validationRules stdinMarker = (before ++ (violated, msg) :: after)%list
         ∧ violated options = true
         ∧ ∀ r, r ∈ before → fst r options = false)
  ∧ length (validationRules (ResumeCfg:=ResumeCfg) stdinMarker) = 5%nat
  ∧ NoDup (snd <$> validationRules (ResumeCfg:=ResumeCfg) stdinMarker).
Proof.
  split; [apply validateOptions_firstViolation|].
  split; [rewrite validateOptions_firstViolation; apply firstViolation_None|].
  split; [intros msg; rewrite validateOptions_firstViolation;
          apply firstViolation_Some|].
  split; [reflexivity|].
  refine (bool_decide_unpack (NoDup _) _). vm_compute. exact I.
Qed.

(** C7: with the version flag set, [ParseOptions] ends in one of three ways,
    none of which consults [validateOptions]: the fatal exit of a failed
    [configureRcodes], the fatal exit of a failed [configureResume], or the
    version message followed by [os.Exit(0)]. *)
Theorem C7_version_before_validation options :
  Version options = true →
  match configureRcodes options with
  | (_, Some e) =>
      ParseOptions options =
        ((configureOutput options ++ [FatalMsg (Error e +:+ newline)])%list, Exit 1)
  | (options1, None) =>
      match configureResume options1 with
      | (_, Some e) =>
          ParseOptions options =
            ((configureOutput options
              ++ [FatalMsg (Error e +:+ newline)])%list, Exit 1)
      | (_, None) =>
          ParseOptions options =
            ((configureOutput options
              ++ [showBanner;
                  InfoMsg ("Current Version: " +:+ versionString +:+ newline)])%list,
             Exit 0)
      end
  end.
Proof.
  intros Hv. unfold ParseOptions.
  pose proof (configureRcodes_Version options) as H1.
  destruct (configureRcodes options) as [options1 [e|]]; [reflexivity|].
  pose proof (configureResume_Version options1) as H2.
  destruct (configureResume options1) as [options2 [e|]]; [reflexivity|].
  simpl in H1, H2. rewrite H2, H1, Hv. rewrite <- app_assoc. reflexivity.
Qed.

(** C8: [ShouldLoadResume] holds exactly when the resume flag is set and
    resume.cfg exists.  [configureResume] calls the loader only then, and
    returns its checkpoint and its error; otherwise it leaves the zero
    checkpoint and returns no error. *)
Theorem C8_resume_load options :
  (ShouldLoadResume options = true ↔
     Resume options = true ∧ FileExists "resume.cfg" = true)
  ∧ configureResume options =
      if ShouldLoadResume options
      then (set_resumeCfg (fst (goconfigLoad (Some zeroResumeCfg) "resume.cfg")) options,
            snd (goconfigLoad (Some zeroResumeCfg) "resume.cfg"))
      else (set_resumeCfg (Some zeroResumeCfg) options, None).
Proof.
  split.
  - unfold ShouldLoadResume, DefaultResumeFile. apply andb_true_iff.
  - unfold configureResume, ShouldLoadResume, DefaultResumeFile.
    destruct options; simpl.
    destruct (Resume0 && FileExists "resume.cfg"); [|reflexivity].
    destruct (goconfigLoad (Some zeroResumeCfg) "resume.cfg"); reflexivity.
Qed.

(** C9: [ShouldSaveResume] is true for every configuration, whatever the
    resume flag. *)
Theorem C9_should_save_always options : ShouldSaveResume options = true.
Proof. reflexivity. Qed.

End RunnerProperties.

(** ** Runs on concrete command lines *)

(** The results below hold for every Unicode lower-casing: the inputs are
    ASCII strings. *)

Lemma run_space_noerror (toLower : string -> string) :
  configureRcodes toLower (rcodeOptions " noerror")
    = (rcodeOptions " noerror", Some (errorsNew "invalid rcode value")).
Proof. vm_compute. reflexivity. Qed.

Lemma run_noerror_bogus (toLower : string -> string) :
  configureRcodes toLower (rcodeOptions "noerror,bogus")
    = (set_rcodes {[ 0 ]} (rcodeOptions "noerror,bogus"),
       Some (errorsNew "invalid rcode value")).
Proof. vm_compute. reflexivity. Qed.

Lemma run_minus_one (toLower : string -> string) :
  configureRcodes toLower (rcodeOptions "-1")
    = (set_rcodes {[ -1 ]} (set_hasRCodes true (rcodeOptions "-1")), None).
Proof. vm_compute. reflexivity. Qed.

Lemma bogus_unparsable (toLower : string -> string) : unparsable toLower "bogus".
Proof.
  split; [discriminate|]. split; [|reflexivity].
  apply tableLookup_None. reflexivity.
Qed.

Lemma C1_symbolic_table_witness :
  ("nxdomain", 3) ∈ rcodeTable
  ∧ ToLower lowerASCII "NXDomain" = "nxdomain"
  ∧ rcodeSwitch lowerASCII "NXDomain" = Rc 3.
Proof.
  assert (Hin : ("nxdomain", 3) ∈ rcodeTable) by (apply tableLookup_Some; reflexivity).
  split; [exact Hin|]. split; [reflexivity|].
  exact (proj1 (C1_symbolic_table lowerASCII (rcodeOptions "NXDomain")
                  "NXDomain" "nxdomain" 3 Hin eq_refl)).
Defined.

Lemma C2_counterexample :
  ¬ ∃ toLower : string -> string, resolvesTrimmed toLower (rcodeOptions " noerror").
Proof.
  intros [toLower H]. destruct H as (options' & Hrun & _).
  - intros tok Htok. fields_in Htok.
    exists 0. apply tableLookup_Some. reflexivity.
  - rewrite run_space_noerror in Hrun. discriminate.
Qed.

Lemma C2_union_of_codes_witness :
  (∀ tok, tok ∈ Split (RCode (rcodeOptions "NoError,nxDOMAIN")) →
     ∃ code, (ToLower lowerASCII tok, code) ∈ rcodeTable)
  ∧ ∃ options', configureRcodes lowerASCII (rcodeOptions "NoError,nxDOMAIN")
                  = (options', None)
      ∧ ∀ rc, rc ∈ rcodes options' ↔
          ∃ tok, tok ∈ Split (RCode (rcodeOptions "NoError,nxDOMAIN"))
                 ∧ (ToLower lowerASCII tok, rc) ∈ rcodeTable.
Proof.
  assert (Hval : ∀ tok, tok ∈ Split (RCode (rcodeOptions "NoError,nxDOMAIN")) →
            ∃ code, (ToLower lowerASCII tok, code) ∈ rcodeTable).
  { intros tok Htok. fields_in Htok.
    - exists 0. apply tableLookup_Some. reflexivity.
    - exists 3. apply tableLookup_Some. reflexivity. }
  split; [exact Hval|].
  exact (C2_union_of_codes lowerASCII (rcodeOptions "NoError,nxDOMAIN") Hval).
Defined.

Lemma C3_counterexample :
  ¬ ∃ toLower : string -> string,
      failsWithoutPartialSet toLower (rcodeOptions "noerror,bogus").
Proof.
  intros [toLower H].
  destruct (H ["noerror"] "bogus" [] eq_refl (bogus_unparsable toLower)) as [_ Hno].
  apply (Hno "noerror" 0); [left|reflexivity|].
  rewrite run_noerror_bogus. apply elem_of_singleton. reflexivity.
Qed.

Lemma C3_invalid_token_witness :
  "bogus" ∈ Split (RCode (rcodeOptions "noerror,bogus"))
  ∧ unparsable lowerASCII "bogus"
  ∧ ∃ options' pre bad post,
      configureRcodes lowerASCII (rcodeOptions "noerror,bogus")
        = (options', Some (errorsNew "invalid rcode value"))
      ∧ Split (RCode (rcodeOptions "noerror,bogus")) = (pre ++ bad :: post)%list
      ∧ rcodeSwitch lowerASCII bad = AtoiError
      ∧ (∀ t, t ∈ pre → rcodeSwitch lowerASCII t ≠ AtoiError)
      ∧ hasRCodes options' = hasRCodes (rcodeOptions "noerror,bogus")
      ∧ ∀ rc, rc ∈ rcodes options' ↔ ∃ t, t ∈ pre ∧ rcodeSwitch lowerASCII t = Rc rc.
Proof.
  assert (Hin : "bogus" ∈ Split (RCode (rcodeOptions "noerror,bogus"))).
  { change ("bogus" ∈ ["noerror"; "bogus"]). right. left. }
  split; [exact Hin|]. split; [exact (bogus_unparsable lowerASCII)|].
  exact (C3_invalid_token lowerASCII (rcodeOptions "noerror,bogus") "bogus" Hin
           (bogus_unparsable lowerASCII)).
Defined.

Lemma C4_counterexample :
  ¬ ∃ toLower : string -> string, yieldsNonNegativeSet toLower (rcodeOptions "-1").
Proof.
  intros [toLower H].
  destruct (H _ (run_minus_one toLower)) as (_ & Hnonneg & _).
  specialize (Hnonneg (-1)).
  assert (Hle : 0 ≤ -1) by (apply Hnonneg; apply elem_of_singleton; reflexivity).
  lia.
Qed.

Lemma C4_nonempty_set_witness :
  configureRcodes lowerASCII (rcodeOptions "-1,refused")
    = (set_rcodes {[ -1; 5 ]} (set_hasRCodes true (rcodeOptions "-1,refused")), None)
  ∧ ∃ rest, String "-" rest ∈ Split (RCode (rcodeOptions "-1,refused"))
            ∧ Atoi (String "-" rest) = Some (-1).
Proof.
  assert (Hrun : configureRcodes lowerASCII (rcodeOptions "-1,refused")
            = (set_rcodes {[ -1; 5 ]}
                 (set_hasRCodes true (rcodeOptions "-1,refused")), None))
    by (vm_compute; reflexivity).
  split; [exact Hrun|].
  destruct (C4_nonempty_set lowerASCII _ _ Hrun) as (_ & Hmem & _).
  refine (proj2 (Hmem (-1) _) _); [|lia].
  change (-1 ∈ ({[ -1; 5 ]} : gset Z)).
  apply elem_of_union. left. apply elem_of_singleton. reflexivity.
Defined.

Lemma C5_hasRCodes_witness :
  configureRcodes lowerASCII (rcodeOptions ",")
    = (set_rcodes {[ 0 ]} (set_hasRCodes true (rcodeOptions ",")), None)
  ∧ (hasRCodes (set_rcodes {[ 0 ]} (set_hasRCodes true (rcodeOptions ","))) = true
     ↔ RCode (rcodeOptions ",") ≠ "").
Proof.
  assert (Hrun : configureRcodes lowerASCII (rcodeOptions ",")
            = (set_rcodes {[ 0 ]} (set_hasRCodes true (rcodeOptions ",")), None))
    by (vm_compute; reflexivity).
  split; [exact Hrun|].
  exact (proj1 (C5_hasRCodes lowerASCII _ _ Hrun)).
Defined.

Lemma C10_token_set_semantics_witness :
  ∃ options2',
    configureRcodes lowerASCII (rcodeOptions "nxdomain,noerror") = (options2', None)
    ∧ rcodes options2'
        = rcodes (fst (configureRcodes lowerASCII
                         (rcodeOptions "noerror,nxdomain,noerror"))).
Proof.
  refine (proj1 (C10_token_set_semantics lowerASCII
                   (rcodeOptions "noerror,nxdomain,noerror")
                   (rcodeOptions "nxdomain,noerror") _ _ _)).
  - intros t.
    change (Split (RCode (rcodeOptions "noerror,nxdomain,noerror")))
      with ["noerror"; "nxdomain"; "noerror"].
    change (Split (RCode (rcodeOptions "nxdomain,noerror")))
      with ["nxdomain"; "noerror"].
    rewrite !elem_of_cons, !elem_of_nil. tauto.
  - vm_compute. reflexivity.
Defined.

Lemma C7_version_before_validation_witness :
  let options : @Options unit :=
    mkOptions "" "" "" false false true true true ∅ "" false false None in
  Version options = true
  ∧ validateOptions "-" options
      = Some "resp and resp-only can't be used at the same time"
  ∧ ParseOptions lowerASCII tt "-" (fun _ => false) (fun cfg _ => (cfg, None))
      "1.0.23" options
      = ([showBanner; InfoMsg ("Current Version: 1.0.23" +:+ newline)], Exit 0).
Proof.
  intros options. split; [reflexivity|]. split; [reflexivity|].
  exact (C7_version_before_validation lowerASCII tt "-" (fun _ => false)
           (fun cfg _ => (cfg, None)) "1.0.23" options eq_refl).
Defined.

(** * Further properties of the rcode filter *)

Lemma allDigits_lowerASCII (s : string) :
  allDigits s = true → isASCII s = true ∧ lowerASCII s = s.
Proof.
  induction s as [|c s IH]; simpl; [auto|].
  intros H. apply andb_true_iff in H as [Hc Hs].
  apply andb_true_iff in Hc as [H1 H2].
  apply Z.leb_le in H1. apply Z.leb_le in H2.
  destruct (IH Hs) as [Ha Hl]. rewrite Ha, Hl. unfold isASCIIByte, lowerByte.
  replace (byteVal c <? 128) with true by (symmetry; apply Z.ltb_lt; lia).
  replace (byteVal c <=? 90) with true by (symmetry; apply Z.leb_le; lia).
  replace (65 <=? byteVal c) with false by (symmetry; apply Z.leb_gt; lia).
  auto.
Qed.

(** A token of the integer grammar starts with a sign or a digit, so with a
    byte below the letters, and lower-casing leaves it as it is. *)
Lemma decimal_head (tok : string) :
  isDecimalInteger tok = true →
  ∃ c rest, tok = String c rest ∧ byteVal c ≤ 57
            ∧ isASCII tok = true ∧ lowerASCII tok = tok.
Proof.
  destruct tok as [|c rest]; [discriminate|]. unfold isDecimalInteger.
  intros H. exists c, rest. split; [reflexivity|].
  destruct (Ascii.eqb_spec c "-") as [->|Hm].
  - simpl in H. apply andb_true_iff in H as [_ H].
    destruct (allDigits_lowerASCII _ H) as [Ha Hl].
    split; [vm_compute; discriminate|]. simpl. rewrite Ha, Hl. auto.
  - destruct (Ascii.eqb_spec c "+") as [->|Hp].
    + simpl in H. apply andb_true_iff in H as [_ H].
      destruct (allDigits_lowerASCII _ H) as [Ha Hl].
      split; [vm_compute; discriminate|]. simpl. rewrite Ha, Hl. auto.
    + simpl orb in H. cbv iota in H.
      destruct (allDigits_lowerASCII _ H) as [Ha Hl]. split; [|auto].
      simpl in H. apply andb_true_iff in H as [H _].
      apply andb_true_iff in H as [_ H]. apply Z.leb_le in H. exact H.
Qed.

Lemma head_below_letters (c c' : ascii) :
  byteVal c ≤ 57 → 97 ≤ byteVal c' → Ascii.eqb c c' = false.
Proof.
  intros H H'. destruct (Ascii.eqb_spec c c') as [->|_]; [lia|reflexivity].
Qed.

(** No name of the table starts with a sign or a digit. *)
Lemma tableLookup_head (c : ascii) (rest : string) :
  byteVal c ≤ 57 → tableLookup rcodeTable (String c rest) = None.
Proof.
  intros Hc. unfold rcodeTable, tableLookup.
  repeat match goal with
  | |- context [String.eqb (String c rest) (String ?c' ?r)] =>
      replace (String.eqb (String c rest) (String c' r)) with false
        by (symmetry; simpl; rewrite (head_below_letters c c' Hc);
            [reflexivity|vm_compute; discriminate])
  end.
  reflexivity.
Qed.

(** The digit loop on digits only: the digits are appended to [n]. *)
Lemma parseDigits_digits (s : string) (n : Z) :
  allDigits s = true → 0 ≤ n →
  ∃ v, parseDigits s n = Some v
       ∧ n * 10 ^ Z.of_nat (String.length s) ≤ v
           < (n + 1) * 10 ^ Z.of_nat (String.length s).
Proof.
  revert n. induction s as [|c s IH]; intros n Hd Hn.
  - exists n. split; [reflexivity|]. simpl. lia.
  - simpl in Hd. apply andb_true_iff in Hd as [Hc Hs].
    simpl parseDigits. unfold digitVal. rewrite Hc.
    apply andb_true_iff in Hc as [H1 H2].
    apply Z.leb_le in H1. apply Z.leb_le in H2.
    destruct (IH (n * 10 + (byteVal c - 48)) Hs ltac:(lia)) as (v & Hv & Hlo & Hhi).
    exists v. split; [exact Hv|].
    change (String.length (String c s)) with (S (String.length s)).
    rewrite Nat2Z.inj_succ, Z.pow_succ_r by lia.
    assert (0 < 10 ^ Z.of_nat (String.length s)) by (apply Z.pow_pos_nonneg; lia).
    nia.
Qed.

Section RcodeFurther.

Context (unicodeToLower : string -> string) {ResumeCfg : Type}.
Implicit Type options : @Options ResumeCfg.

Local Abbreviation ToLower := (ToLower unicodeToLower).
Local Abbreviation rcodeSwitch := (rcodeSwitch unicodeToLower).
Local Abbreviation rcodesLoop := (rcodesLoop unicodeToLower).
Local Abbreviation configureRcodes := (configureRcodes unicodeToLower).

Lemma rcodeSwitch_AtoiError (tok : string) :
  rcodeSwitch tok = AtoiError ↔
    ToLower tok ≠ "" ∧ (∀ code, (ToLower tok, code) ∉ rcodeTable) ∧ Atoi tok = None.
Proof.
  rewrite rcodeSwitch_cases.
  destruct (String.eqb_spec (ToLower tok) "") as [He|Hne].
  - split; [discriminate|]. intros [H _]. contradiction.
  - destruct (tableLookup rcodeTable (ToLower tok)) as [c|] eqn:Ht.
    + split; [discriminate|]. intros (_ & H & _). exfalso.
      exact (H c (tableLookup_Some _ _ _ Ht)).
    + destruct (Atoi tok) as [v|].
      * split; [discriminate|]. intros (_ & _ & H). discriminate.
      * split; [|reflexivity]. intros _. split; [exact Hne|].
        split; [exact (tableLookup_None _ _ Ht)|reflexivity].
Qed.

Lemma configureRcodes_frame options :
  Hosts (fst (configureRcodes options)) = Hosts options
  ∧ Domains (fst (configureRcodes options)) = Domains options
  ∧ WordList (fst (configureRcodes options)) = WordList options
  ∧ Silent (fst (configureRcodes options)) = Silent options
  ∧ Verbose (fst (configureRcodes options)) = Verbose options
  ∧ Version (fst (configureRcodes options)) = Version options
  ∧ Response (fst (configureRcodes options)) = Response options
  ∧ ResponseOnly (fst (configureRcodes options)) = ResponseOnly options
  ∧ RCode (fst (configureRcodes options)) = RCode options
  ∧ Resume (fst (configureRcodes options)) = Resume options
  ∧ resumeCfg (fst (configureRcodes options)) = resumeCfg options.
Proof.
  rewrite configureRcodes_eq.
  destruct (rcodesLoop (Split (RCode options)) ∅) as [m [e|]];
    destruct options; repeat split.
Qed.

(** X1: [configureRcodes] writes [rcodes] and [hasRCodes] only: every other
    field of the options is as before the call, whether it succeeds or
    fails. *)
Theorem X1_configureRcodes_frame options :
  Hosts (fst (configureRcodes options)) = Hosts options
  ∧ Domains (fst (configureRcodes options)) = Domains options
  ∧ WordList (fst (configureRcodes options)) = WordList options
  ∧ Silent (fst (configureRcodes options)) = Silent options
  ∧ Verbose (fst (configureRcodes options)) = Verbose options
  ∧ Version (fst (configureRcodes options)) = Version options
  ∧ Response (fst (configureRcodes options)) = Response options
  ∧ ResponseOnly (fst (configureRcodes options)) = ResponseOnly options
  ∧ RCode (fst (configureRcodes options)) = RCode options
  ∧ Resume (fst (configureRcodes options)) = Resume options
  ∧ resumeCfg (fst (configureRcodes options)) = resumeCfg options.
Proof.
  rewrite configureRcodes_eq.
  destruct (rcodesLoop (Split (RCode options)) ∅) as [m [e|]];
    destruct options; repeat split.
Qed.

(** X2: [configureRcodes] starts from a fresh map: what [rcodes] held before
    the call has no effect on the set or on the error, and calling it again
    on its own result changes nothing. *)
Theorem X2_configureRcodes_fresh_map options (m : gset Z) :
  rcodes (fst (configureRcodes (set_rcodes m options)))
    = rcodes (fst (configureRcodes options))
  ∧ snd (configureRcodes (set_rcodes m options)) = snd (configureRcodes options)
  ∧ configureRcodes (fst (configureRcodes options)) = configureRcodes options.
Proof.
  assert (Hm : RCode (set_rcodes m options) = RCode options)
    by (destruct options; reflexivity).
  split; [|split].
  - rewrite !configureRcodes_eq, Hm.
    destruct (rcodesLoop (Split (RCode options)) ∅) as [m' [e|]];
      destruct options; reflexivity.
  - rewrite !configureRcodes_eq, Hm.
    destruct (rcodesLoop (Split (RCode options)) ∅) as [m' [e|]]; reflexivity.
  - rewrite (configureRcodes_eq unicodeToLower options).
    destruct (rcodesLoop (Split (RCode options)) ∅) as [m' [e|]] eqn:Hloop;
      rewrite configureRcodes_eq; simpl fst.
    + replace (RCode (set_rcodes m' options)) with (RCode options)
        by (destruct options; reflexivity).
      rewrite Hloop. destruct options; reflexivity.
    + replace (RCode (set_rcodes _ (set_hasRCodes _ options))) with (RCode options)
        by (destruct options; reflexivity).
      rewrite Hloop. destruct options; reflexivity.
Qed.

Lemma configureRcodes_error_cases options :
  snd (configureRcodes options) = None
  ∨ snd (configureRcodes options) = Some (errorsNew "invalid rcode value").
Proof.
  rewrite configureRcodes_eq.
  pose proof (rcodesLoop_spec unicodeToLower (Split (RCode options)) ∅) as Hloop.
  destruct (rcodesLoop (Split (RCode options)) ∅) as [m [e|]]; simpl snd.
  - destruct Hloop as [-> _]. right. reflexivity.
  - left. reflexivity.
Qed.

(** X3: the only error of [configureRcodes] is "invalid rcode value", and it
    is returned exactly when some token is not empty after lower-casing, is
    no name of the table and is refused by [strconv.Atoi]. *)
Theorem X3_configureRcodes_error options :
  (snd (configureRcodes options) = None
   ∨ snd (configureRcodes options) = Some (errorsNew "invalid rcode value"))
  ∧ (snd (configureRcodes options) = Some (errorsNew "invalid rcode value") ↔
       ∃ tok, tok ∈ Split (RCode options)
              ∧ ToLower tok ≠ ""
              ∧ (∀ code, (ToLower tok, code) ∉ rcodeTable)
              ∧ Atoi tok = None).
Proof.
  rewrite configureRcodes_eq.
  pose proof (rcodesLoop_spec unicodeToLower (Split (RCode options)) ∅) as Hloop.
  destruct (rcodesLoop (Split (RCode options)) ∅) as [m [e|]]; simpl snd.
  - destruct Hloop as (-> & pre & bad & post & Hsplit & Hbad & _).
    split; [right; reflexivity|]. split; [intros _|reflexivity].
    exists bad. split; [rewrite Hsplit; apply elem_of_app; right; left|].
    apply rcodeSwitch_AtoiError, Hbad.
  - destruct Hloop as [Hall _]. split; [left; reflexivity|].
    split; [discriminate|]. intros (tok & Htok & Hbad). exfalso.
    apply (Hall tok Htok). apply rcodeSwitch_AtoiError, Hbad.
Qed.

(** X4: a token of the integer grammar (an optional sign, then digits) of at
    most 18 bytes is never refused: it resolves through [strconv.Atoi], not
    through the table, to a value of fewer than 19 digits, negative only
    under a minus sign. *)
Theorem X4_numeric_token (tok : string) :
  isDecimalInteger tok = true → (String.length tok ≤ 18)%nat →
  ∃ rc, rcodeSwitch tok = Rc rc ∧ Atoi tok = Some rc
        ∧ - 10 ^ 18 < rc < 10 ^ 18
        ∧ (rc < 0 → ∃ rest, tok = String "-" rest).
Proof.
  intros Hdec Hlen.
  destruct (decimal_head tok Hdec) as (c & rest & -> & Hc & Hascii & Hlow).
  assert (Hbound : ∀ body : string,
            allDigits body = true → (String.length body ≤ 18)%nat →
            ∃ v, parseDigits body 0 = Some v ∧ 0 ≤ v < 10 ^ 18).
  { intros body Hd Hl.
    destruct (parseDigits_digits body 0 Hd ltac:(lia)) as (v & Hv & Hlo & Hhi).
    exists v. split; [exact Hv|]. split; [lia|].
    assert (10 ^ Z.of_nat (String.length body) ≤ 10 ^ 18)
      by (apply Z.pow_le_mono_r; lia).
    lia. }
  assert (Hatoi : ∃ rc, Atoi (String c rest) = Some rc ∧ - 10 ^ 18 < rc < 10 ^ 18
                        ∧ (rc < 0 → ∃ rest', String c rest = String "-" rest')).
  { unfold isDecimalInteger in Hdec. unfold Atoi.
    change (String.length (String c rest)) with (S (String.length rest)) in Hlen.
    destruct (Ascii.eqb_spec c "-") as [->|Hm]; simpl orb in *; cbv iota in *.
    - apply andb_true_iff in Hdec as [Hne Hd].
      destruct rest as [|c' rest']; [discriminate|].
      destruct (Hbound (String c' rest') Hd ltac:(lia)) as (v & Hv & Hr).
      rewrite Hv.
      replace ((minInt <=? - v) && (- v <=? maxInt)) with true
        by (symmetry; apply andb_true_iff; split; apply Z.leb_le;
            unfold minInt, maxInt, intSize; lia).
      exists (- v). split; [reflexivity|]. split; [lia|eauto].
    - destruct (Ascii.eqb_spec c "+") as [->|Hp]; cbv iota in *.
      + apply andb_true_iff in Hdec as [Hne Hd].
        destruct rest as [|c' rest']; [discriminate|].
        destruct (Hbound (String c' rest') Hd ltac:(lia)) as (v & Hv & Hr).
        rewrite Hv.
        replace ((minInt <=? v) && (v <=? maxInt)) with true
          by (symmetry; apply andb_true_iff; split; apply Z.leb_le;
              unfold minInt, maxInt, intSize; lia).
        exists v. split; [reflexivity|]. split; [lia|]. intros; lia.
      + destruct (Hbound (String c rest) Hdec ltac:(simpl; lia)) as (v & Hv & Hr).
        rewrite Hv.
        replace ((minInt <=? v) && (v <=? maxInt)) with true
          by (symmetry; apply andb_true_iff; split; apply Z.leb_le;
              unfold minInt, maxInt, intSize; lia).
        exists v. split; [reflexivity|]. split; [lia|]. intros; lia. }
  destruct Hatoi as (rc & Ha & Hr & Hneg). exists rc.
  split; [|split; [exact Ha|split; [exact Hr|exact Hneg]]].
  rewrite rcodeSwitch_cases. unfold ToLower. rewrite Hascii, Hlow.
  change (String.eqb (String c rest) "") with false. cbv iota.
  rewrite (tableLookup_head c rest Hc), Ha. reflexivity.
Qed.

Lemma configureRcodes_None options :
  snd (configureRcodes options) = None ↔
    ∀ t, t ∈ Split (RCode options) → rcodeSwitch t ≠ AtoiError.
Proof.
  split.
  - destruct (configureRcodes options) as [options' err] eqn:Hrun. simpl.
    intros ->. apply configureRcodes_ok in Hrun as [Hall _]. exact Hall.
  - intros Hall. destruct (configureRcodes_succeeds _ options Hall) as [o' ->].
    reflexivity.
Qed.

Lemma configureRcodes_members options :
  snd (configureRcodes options) = None →
  ∀ rc, rc ∈ rcodes (fst (configureRcodes options)) ↔
    (∃ t, t ∈ Split (RCode options) ∧ rcodeSwitch t = Rc rc)
    ∨ (rc = 0 ∧ ∀ t, t ∈ Split (RCode options) → rcodeSwitch t = Continue).
Proof.
  destruct (configureRcodes options) as [options' err] eqn:Hrun. simpl.
  intros ->. apply configureRcodes_ok in Hrun as (_ & _ & Hm). exact Hm.
Qed.

(** X5: the implicit code 0 is a default, not a member that is always
    there: as soon as one token is not empty the set is exactly the codes
    of the tokens.  And when [hasRCodes] is false after the call, the set is
    the default {0}. *)
Theorem X5_default_only_when_nothing_given options options' :
  configureRcodes options = (options', None) →
  ((∃ tok, tok ∈ Split (RCode options) ∧ ToLower tok ≠ "") →
     ∀ rc, rc ∈ rcodes options' ↔
       ∃ tok, tok ∈ Split (RCode options) ∧ rcodeSwitch tok = Rc rc)
  ∧ (hasRCodes options' = false → rcodes options' = {[ 0 ]}).
Proof.
  intros Hrun. apply configureRcodes_ok in Hrun as (_ & Hhas & Hm). split.
  - intros (tok & Htok & Hne) rc. rewrite Hm. split; [|auto].
    intros [H|[_ Hc]]; [exact H|]. exfalso. apply Hne.
    apply rcodeSwitch_Continue with (unicodeToLower := unicodeToLower).
    exact (Hc tok Htok).
  - rewrite Hhas. destruct (String.eqb_spec (RCode options) "") as [He|]; [|discriminate].
    intros _. apply set_eq. intros rc. rewrite Hm, He, elem_of_singleton.
    change (Split "") with [""]. split.
    + intros [(t & Ht & Hsw)|[-> _]]; [|reflexivity].
      apply list_elem_of_singleton in Ht as ->. vm_compute in Hsw. discriminate.
    + intros ->. right. split; [reflexivity|].
      intros t Ht. apply list_elem_of_singleton in Ht as ->. reflexivity.
Qed.

(** X6: two rcode strings joined by a comma.  The joined string is accepted
    exactly when both parts are; its set is then within the union of the
    sets of the parts, and is that union when each part has a token that is
    not empty. *)
Theorem X6_comma_join options (a b : string) :
  (snd (configureRcodes (withRCode (a +:+ "," +:+ b) options)) = None ↔
     snd (configureRcodes (withRCode a options)) = None
     ∧ snd (configureRcodes (withRCode b options)) = None)
  ∧ (snd (configureRcodes (withRCode (a +:+ "," +:+ b) options)) = None →
       rcodes (fst (configureRcodes (withRCode (a +:+ "," +:+ b) options)))
         ⊆ rcodes (fst (configureRcodes (withRCode a options)))
           ∪ rcodes (fst (configureRcodes (withRCode b options)))
       ∧ ((∃ t, t ∈ Split a ∧ ToLower t ≠ "") →
          (∃ t, t ∈ Split b ∧ ToLower t ≠ "") →
          rcodes (fst (configureRcodes (withRCode (a +:+ "," +:+ b) options)))
            = rcodes (fst (configureRcodes (withRCode a options)))
              ∪ rcodes (fst (configureRcodes (withRCode b options))))).
Proof.
  assert (Hiff : snd (configureRcodes (withRCode (a +:+ "," +:+ b) options)) = None ↔
            snd (configureRcodes (withRCode a options)) = None
            ∧ snd (configureRcodes (withRCode b options)) = None).
  { rewrite !configureRcodes_None.
    change (RCode (withRCode (a +:+ "," +:+ b) options)) with (a +:+ "," +:+ b).
    change (RCode (withRCode a options)) with a.
    change (RCode (withRCode b options)) with b.
    rewrite Split_join. split.
    - intros H. split; intros t Ht; apply H, elem_of_app; auto.
    - intros [Ha Hb] t Ht. apply elem_of_app in Ht as [Ht|Ht]; auto. }
  split; [exact Hiff|]. intros Hab. destruct (proj1 Hiff Hab) as [Ha Hb].
  pose proof (configureRcodes_members _ Hab) as Mab.
  pose proof (configureRcodes_members _ Ha) as Ma.
  pose proof (configureRcodes_members _ Hb) as Mb.
  change (RCode (withRCode (a +:+ "," +:+ b) options)) with (a +:+ "," +:+ b) in Mab.
  change (RCode (withRCode a options)) with a in Ma.
  change (RCode (withRCode b options)) with b in Mb.
  rewrite Split_join in Mab. split.
  - intros rc Hrc. apply elem_of_union. apply Mab in Hrc as [(t & Ht & Hsw)|[-> Hc]].
    + apply elem_of_app in Ht as [Ht|Ht]; [left; apply Ma|right; apply Mb]; eauto.
    + left. apply Ma. right. split; [reflexivity|].
      intros t Ht. apply Hc, elem_of_app. auto.
  - intros (ta & Hta & Hna) (tb & Htb & Hnb). apply set_eq. intros rc.
    rewrite elem_of_union, Mab, Ma, Mb. split.
    + intros [(t & Ht & Hsw)|[_ Hc]].
      * apply elem_of_app in Ht as [Ht|Ht]; [left|right]; left; eauto.
      * exfalso. apply Hna.
        apply rcodeSwitch_Continue with (unicodeToLower := unicodeToLower).
        apply Hc, elem_of_app. auto.
    + intros [[(t & Ht & Hsw)|[_ Hc]]|[(t & Ht & Hsw)|[_ Hc]]].
      * left. exists t. split; [apply elem_of_app; auto|exact Hsw].
      * exfalso. apply Hna.
        apply rcodeSwitch_Continue with (unicodeToLower := unicodeToLower). auto.
      * left. exists t. split; [apply elem_of_app; auto|exact Hsw].
      * exfalso. apply Hnb.
        apply rcodeSwitch_Continue with (unicodeToLower := unicodeToLower). auto.
Qed.

Lemma rcodesLoop_size (tokens : list string) (m : gset Z) :
  (size (fst (rcodesLoop tokens m)) ≤ size m + length tokens)%nat.
Proof.
  revert m. induction tokens as [|tok tokens IH]; intros m; simpl; [lia|].
  destruct (rcodeSwitch tok) as [|c|].
  - specialize (IH m). lia.
  - specialize (IH ({[c]} ∪ m)).
    assert (size ({[c]} ∪ m) ≤ S (size m))%nat.
    { rewrite size_union_alt, size_singleton.
      assert (size (m ∖ {[c]}) ≤ size m)%nat
        by (apply subseteq_size, subseteq_difference_l; reflexivity).
      lia. }
    lia.
  - simpl. lia.
Qed.

(** X7: the set never has more members than the string has fields: a string
    with n commas gives a set of at most n + 1 codes, and at least one when
    the call succeeds. *)
Theorem X7_size_bound options :
  (size (rcodes (fst (configureRcodes options))) ≤ length (Split (RCode options)))%nat
  ∧ (snd (configureRcodes options) = None →
       (1 ≤ size (rcodes (fst (configureRcodes options))))%nat).
Proof.
  split.
  - rewrite configureRcodes_eq.
    pose proof (rcodesLoop_size (Split (RCode options)) ∅) as Hsz.
    rewrite size_empty in Hsz.
    destruct (rcodesLoop (Split (RCode options)) ∅) as [m [e|]]; simpl in Hsz.
    + replace (rcodes (fst (set_rcodes m options, Some e))) with m
        by (destruct options; reflexivity).
      lia.
    + match goal with |- (size (rcodes (fst (set_rcodes ?X ?o, None))) ≤ _)%nat =>
        replace (rcodes (fst (set_rcodes X o, None))) with X
          by (destruct options; reflexivity) end.
      destruct (Nat.eqb_spec (size m) 0) as [Hz|Hz]; [|lia].
      apply size_empty_iff in Hz. apply leibniz_equiv in Hz. subst m.
      rewrite (right_id_L ∅ (∪)), size_singleton.
      rewrite Split_cons. simpl. lia.
  - destruct (configureRcodes options) as [options' err] eqn:Hrun. simpl.
    intros ->. pose proof (configureRcodes_nonempty _ _ _ Hrun) as Hne.
    destruct (size (rcodes options')) eqn:Hsz; [|lia].
    exfalso. apply Hne. apply leibniz_equiv. apply size_empty_iff. exact Hsz.
Qed.

End RcodeFurther.

(** * Further properties of validation and sequencing *)

Lemma maxLevelAfter_app (log1 log2 : list logCall) (l : option Level) :
  maxLevelAfter (log1 ++ log2)%list l = maxLevelAfter log2 (maxLevelAfter log1 l).
Proof.
  revert l. induction log1 as [|c log1 IH]; intros l; [reflexivity|].
  destruct c; simpl; apply IH.
Qed.

Section RunnerFurther.

Context (unicodeToLower : string -> string) {ResumeCfg : Type}
        (zeroResumeCfg : ResumeCfg) (stdinMarker : string)
        (FileExists : string -> bool)
        (goconfigLoad : option ResumeCfg -> string -> option ResumeCfg * option error)
        (versionString : string).
Implicit Type options : @Options ResumeCfg.

Local Abbreviation configureRcodes := (configureRcodes unicodeToLower).
Local Abbreviation validateOptions := (validateOptions stdinMarker).
Local Abbreviation ShouldLoadResume := (ShouldLoadResume FileExists).
Local Abbreviation configureResume :=
  (configureResume zeroResumeCfg FileExists goconfigLoad).
Local Abbreviation ParseOptions :=
  (ParseOptions unicodeToLower zeroResumeCfg stdinMarker FileExists goconfigLoad
     versionString).

(** [validateOptions] reads the input and display flags only. *)
Lemma validateOptions_flags options1 options2 :
  Hosts options1 = Hosts options2 → Domains options1 = Domains options2 →
  WordList options1 = WordList options2 → Response options1 = Response options2 →
  ResponseOnly options1 = ResponseOnly options2 →
  validateOptions options1 = validateOptions options2.
Proof.
  intros H1 H2 H3 H4 H5. unfold validateOptions. rewrite H1, H2, H3, H4, H5.
  reflexivity.
Qed.

Lemma configureResume_eq options :
  configureResume options =
    if Resume options && FileExists DefaultResumeFile
    then (set_resumeCfg (fst (goconfigLoad (Some zeroResumeCfg) DefaultResumeFile))
            options,
          snd (goconfigLoad (Some zeroResumeCfg) DefaultResumeFile))
    else (set_resumeCfg (Some zeroResumeCfg) options, None).
Proof.
  unfold configureResume. destruct options; simpl.
  destruct (Resume0 && FileExists DefaultResumeFile); [|reflexivity].
  destruct (goconfigLoad (Some zeroResumeCfg) DefaultResumeFile); reflexivity.
Qed.

(** X8: with a marker that is not the empty string, the configurations that
    pass [validateOptions] are those without both display flags and with
    either no domain and no wordlist, or a domain and a wordlist, no host
    list, and not both bound to standard input.  A configuration that passes
    binds at most one of its three inputs to standard input. *)
Theorem X8_accepted_input_modes options :
  stdinMarker ≠ "" →
  (validateOptions options = None ↔
     ¬ (Response options = true ∧ ResponseOnly options = true)
     ∧ ((Domains options = "" ∧ WordList options = "")
        ∨ (Hosts options = "" ∧ Domains options ≠ "" ∧ WordList options ≠ ""
           ∧ ¬ (Domains options = stdinMarker ∧ WordList options = stdinMarker))))
  ∧ (validateOptions options = None →
       ¬ (Hosts options = stdinMarker ∧ Domains options = stdinMarker)
       ∧ ¬ (Hosts options = stdinMarker ∧ WordList options = stdinMarker)
       ∧ ¬ (Domains options = stdinMarker ∧ WordList options = stdinMarker)).
Proof using Type.
  clear. intros Hmarker. unfold validateOptions, argumentHasStdin.
  destruct options as [hosts domains wordlist ? ? ? resp respOnly ? ? ? ? ?]; simpl.
  destruct resp, respOnly;
  destruct (String.eqb_spec hosts ""), (String.eqb_spec domains ""),
    (String.eqb_spec wordlist ""),
    (String.eqb_spec domains stdinMarker), (String.eqb_spec wordlist stdinMarker);
  simpl; (split; [split|]); intros; try discriminate; try reflexivity;
  intuition congruence.
Qed.

(** X9: an rcode string that [configureRcodes] refuses ends [ParseOptions]
    with the fatal message "invalid rcode value" and exit code 1, before the
    resume file is consulted and before the banner, also when the version
    flag is set: the outcome mentions neither the file system nor the
    version. *)
Theorem X9_rcode_error_first options :
  snd (configureRcodes options) ≠ None →
  ParseOptions options =
    ((configureOutput options ++ [FatalMsg ("invalid rcode value" +:+ newline)])%list,
     Exit 1).
Proof.
  intros Herr. unfold ParseOptions.
  destruct (configureRcodes_error_cases unicodeToLower options) as [H|H];
    [contradiction|].
  destruct (configureRcodes options) as [options1 err]. simpl in H. subst err.
  reflexivity.
Qed.

(** X10: the two configuration steps touch different fields and read none of
    the other's: in either order they leave the same options, and neither
    changes the error of the other. *)
Theorem X10_configure_steps_commute options :
  fst (configureResume (fst (configureRcodes options)))
    = fst (configureRcodes (fst (configureResume options)))
  ∧ snd (configureResume (fst (configureRcodes options)))
      = snd (configureResume options)
  ∧ snd (configureRcodes (fst (configureResume options)))
      = snd (configureRcodes options).
Proof.
  destruct options as [h d w si ve vr re ro rcs rc hr rs cfg].
  rewrite !configureResume_eq, !configureRcodes_eq.
  cbv beta iota delta [fst snd set_resumeCfg set_rcodes set_hasRCodes RCode Resume].
  destruct (rs && FileExists DefaultResumeFile) eqn:Hload;
    cbv beta iota delta [fst snd set_resumeCfg set_rcodes set_hasRCodes RCode Resume];
    destruct (rcodesLoop unicodeToLower (Split rc) ∅) as [m [e|]];
    cbv beta iota delta [fst snd set_resumeCfg set_rcodes set_hasRCodes RCode Resume
                         Hosts Domains WordList Silent Verbose Version Response
                         ResponseOnly rcodes hasRCodes resumeCfg];
    rewrite ?Hload; repeat split.
Qed.

Lemma validateOptions_configured options :
  validateOptions (fst (configureResume (fst (configureRcodes options))))
    = validateOptions options.
Proof.
  rewrite configureResume_eq.
  pose proof (configureRcodes_frame unicodeToLower options)
    as (H1 & H2 & H3 & _ & _ & _ & H7 & H8 & _).
  destruct (Resume _ && FileExists DefaultResumeFile); simpl fst;
    (transitivity (validateOptions (fst (configureRcodes options)));
     [apply validateOptions_flags; destruct (fst (configureRcodes options));
      reflexivity
     |apply validateOptions_flags; assumption]).
Qed.

Lemma Version_configured options :
  Version (fst (configureResume (fst (configureRcodes options)))) = Version options.
Proof.
  rewrite configureResume_Version.
  apply configureRcodes_Version.
Qed.

(** [ParseOptions] by cases on its four tests. *)
Lemma ParseOptions_cases options :
  ParseOptions options =
    match snd (configureRcodes options) with
    | Some e =>
        ((configureOutput options ++ [FatalMsg (Error e +:+ newline)])%list, Exit 1)
    | None =>
        match snd (configureResume options) with
        | Some e =>
            ((configureOutput options ++ [FatalMsg (Error e +:+ newline)])%list,
             Exit 1)
        | None =>
            if Version options
            then ((configureOutput options
                   ++ [showBanner;
                       InfoMsg ("Current Version: " +:+ versionString +:+ newline)])%list,
                  Exit 0)
            else
              match validateOptions options with
              | Some msg =>
                  ((configureOutput options ++ [showBanner; FatalMsg msg])%list,
                   Exit 1)
              | None =>
                  ((configureOutput options ++ [showBanner])%list,
                   Return (fst (configureResume (fst (configureRcodes options)))))
              end
        end
    end.
Proof.
  pose proof (Version_configured options) as Hv.
  pose proof (validateOptions_configured options) as Hval.
  destruct (X10_configure_steps_commute options) as (_ & Herr & _).
  unfold ParseOptions.
  destruct (configureRcodes options) as [options1 [e|]]; [reflexivity|].
  simpl fst in *. simpl snd. rewrite <- Herr.
  destruct (configureResume options1) as [options2 [e|]]; [reflexivity|].
  simpl fst in *. simpl snd. rewrite Hv, Hval.
  destruct (Version options); [rewrite <- app_assoc; reflexivity|].
  destruct (validateOptions options); [rewrite <- app_assoc; reflexivity|reflexivity].
Qed.

(** X11: [ParseOptions] returns a configuration exactly when the rcode string
    is accepted, the resume step gives no error, the version flag is not
    set and the parsed flags pass [validateOptions]. *)
Theorem X11_returns_iff options :
  (∃ log options', ParseOptions options = (log, Return options')) ↔
    snd (configureRcodes options) = None
    ∧ snd (configureResume options) = None
    ∧ Version options = false
    ∧ validateOptions options = None.
Proof.
  rewrite ParseOptions_cases.
  destruct (snd (configureRcodes options)) as [e|].
  { split; [intros (log & o' & H); discriminate|intros [H _]; discriminate]. }
  destruct (snd (configureResume options)) as [e|].
  { split; [intros (log & o' & H); discriminate|intros (_ & H & _); discriminate]. }
  destruct (Version options).
  { split; [intros (log & o' & H); discriminate|intros (_ & _ & H & _); discriminate]. }
  destruct (validateOptions options) as [msg|].
  { split; [intros (log & o' & H); discriminate
           |intros (_ & _ & _ & H); discriminate]. }
  split; [auto|]. intros _. eauto.
Qed.

(** X12: the configuration [ParseOptions] returns has a set of rcodes that is
    not empty, [hasRCodes] set from the rcode string, passes
    [validateOptions] itself, keeps every flag of the command line, and has
    the zero checkpoint when nothing was to be loaded; the log is the level
    calls and then the banner. *)
Theorem X12_returned_configuration options log options' :
  ParseOptions options = (log, Return options') →
  log = (configureOutput options ++ [showBanner])%list
  ∧ rcodes options' ≠ ∅
  ∧ hasRCodes options' = negb (String.eqb (RCode options) "")
  ∧ validateOptions options' = None
  ∧ Version options' = false
  ∧ (ShouldLoadResume options = false → resumeCfg options' = Some zeroResumeCfg)
  ∧ Hosts options' = Hosts options ∧ Domains options' = Domains options
  ∧ WordList options' = WordList options ∧ RCode options' = RCode options
  ∧ Response options' = Response options
  ∧ ResponseOnly options' = ResponseOnly options
  ∧ Silent options' = Silent options ∧ Verbose options' = Verbose options
  ∧ Resume options' = Resume options.
Proof.
  intros Hret. rewrite ParseOptions_cases in Hret.
  destruct (snd (configureRcodes options)) as [e|] eqn:Hrc; [discriminate|].
  destruct (snd (configureResume options)) as [e|] eqn:Hres; [discriminate|].
  destruct (Version options) eqn:Hver; [discriminate|].
  destruct (validateOptions options) as [msg|] eqn:Hval; [discriminate|].
  injection Hret as <- <-.
  split; [reflexivity|].
  pose proof (validateOptions_configured options) as Hval'.
  pose proof (Version_configured options) as Hver'.
  destruct (configureRcodes options) as [options1 err] eqn:Hrun.
  simpl in Hrc. subst err. simpl fst in *.
  pose proof (configureRcodes_nonempty _ _ _ Hrun) as Hne.
  pose proof (configureRcodes_ok _ _ _ Hrun) as (_ & Hhas & _).
  pose proof (configureRcodes_frame unicodeToLower options) as Hframe.
  rewrite Hrun in Hframe. simpl fst in Hframe.
  destruct Hframe as (F1 & F2 & F3 & F4 & F5 & F6 & F7 & F8 & F9 & F10 & F11).
  rewrite configureResume_eq in *. unfold ShouldLoadResume.
  rewrite F10.
  destruct (Resume options && FileExists DefaultResumeFile); simpl fst in *;
    destruct options1; simpl in *; subst;
    repeat split; try assumption; try congruence; try reflexivity.
Qed.


Lemma showBanner_configureOutput options : showBanner ∉ configureOutput options.
Proof.
  unfold configureOutput. destruct (Verbose options), (Silent options); simpl;
    rewrite ?elem_of_cons, elem_of_nil; intuition discriminate.
Qed.

(** X14: the banner is shown exactly when both configuration steps succeed:
    never before the fatal message of an rcode or resume error, always
    before the version message and before a validation error. *)
Theorem X14_banner options :
  showBanner ∈ fst (ParseOptions options) ↔
    snd (configureRcodes options) = None ∧ snd (configureResume options) = None.
Proof.
  pose proof (showBanner_configureOutput options) as Hno.
  rewrite ParseOptions_cases.
  destruct (snd (configureRcodes options)) as [e|].
  { simpl. rewrite elem_of_app, list_elem_of_singleton.
    split; [intros [H|H]; [contradiction|discriminate]|intros [H _]; discriminate]. }
  destruct (snd (configureResume options)) as [e|].
  { simpl. rewrite elem_of_app, list_elem_of_singleton.
    split; [intros [H|H]; [contradiction|discriminate]|intros [_ H]; discriminate]. }
  split; [auto|]. intros _.
  destruct (Version options); [|destruct (validateOptions options)]; simpl;
    apply elem_of_app; right; left.
Qed.

(** X15: whatever way [ParseOptions] ends, the level it leaves on the logger
    is silent when the silent flag is set, also together with the verbose
    flag; verbose when only that flag is set; and the level it found
    otherwise. *)
Theorem X15_silent_wins options (l : option Level) :
  maxLevelAfter (fst (ParseOptions options)) l =
    if Silent options then Some LevelSilent
    else if Verbose options then Some LevelVerbose
    else l.
Proof.
  assert (Hout : maxLevelAfter (configureOutput options) l =
            if Silent options then Some LevelSilent
            else if Verbose options then Some LevelVerbose else l).
  { unfold configureOutput. destruct (Verbose options), (Silent options); reflexivity. }
  rewrite ParseOptions_cases.
  destruct (snd (configureRcodes options)) as [e|];
    [simpl fst; rewrite maxLevelAfter_app; exact Hout|].
  destruct (snd (configureResume options)) as [e|];
    [simpl fst; rewrite maxLevelAfter_app; exact Hout|].
  destruct (Version options); [|destruct (validateOptions options)];
    simpl fst; rewrite maxLevelAfter_app; exact Hout.
Qed.

End RunnerFurther.

(** ** Runs for the further properties *)

Lemma X4_numeric_token_witness :
  isDecimalInteger "-0042" = true
  ∧ (String.length "-0042" ≤ 18)%nat
  ∧ ∃ rc, rcodeSwitch lowerASCII "-0042" = Rc rc ∧ Atoi "-0042" = Some rc
          ∧ - 10 ^ 18 < rc < 10 ^ 18
          ∧ (rc < 0 → ∃ rest, "-0042" = String "-" rest).
Proof.
  assert (Hlen : (String.length "-0042" ≤ 18)%nat) by (simpl; lia).
  split; [reflexivity|]. split; [exact Hlen|].
  exact (X4_numeric_token lowerASCII "-0042" eq_refl Hlen).
Defined.

Lemma X5_default_only_when_nothing_given_witness :
  configureRcodes lowerASCII (rcodeOptions ",nxdomain")
    = (set_rcodes {[ 3 ]} (set_hasRCodes true (rcodeOptions ",nxdomain")), None)
  ∧ (hasRCodes (set_rcodes {[ 3 ]} (set_hasRCodes true (rcodeOptions ",nxdomain")))
       = false →
     rcodes (set_rcodes {[ 3 ]} (set_hasRCodes true (rcodeOptions ",nxdomain")))
       = {[ 0 ]}).
Proof.
  assert (Hrun : configureRcodes lowerASCII (rcodeOptions ",nxdomain")
            = (set_rcodes {[ 3 ]} (set_hasRCodes true (rcodeOptions ",nxdomain")),
               None))
    by (vm_compute; reflexivity).
  split; [exact Hrun|].
  exact (proj2 (X5_default_only_when_nothing_given lowerASCII _ _ Hrun)).
Defined.

Lemma X8_accepted_input_modes_witness :
  let options : @Options unit :=
    mkOptions "" "-" "words.txt" false false false true false ∅ "" false false None in
  "-" ≠ "" ∧ validateOptions "-" options = None.
Proof.
  intros options.
  assert (Hmarker : "-" ≠ "") by discriminate.
  split; [exact Hmarker|].
  apply (proj1 (X8_accepted_input_modes "-" options Hmarker)).
  split; [intros [_ H]; discriminate|].
  right. repeat split; try discriminate. intros [_ H]. discriminate.
Defined.

Lemma X9_rcode_error_first_witness :
  let options : @Options unit :=
    mkOptions "" "" "" false false true false false ∅ "bogus" false true None in
  snd (configureRcodes lowerASCII options) ≠ None
  ∧ ParseOptions lowerASCII tt "-" (fun _ => true) (fun cfg _ => (cfg, None))
      "1.0.23" options
      = ([FatalMsg ("invalid rcode value" +:+ newline)], Exit 1).
Proof.
  intros options.
  assert (Herr : snd (configureRcodes lowerASCII options) ≠ None)
    by (vm_compute; discriminate).
  split; [exact Herr|].
  exact (X9_rcode_error_first lowerASCII tt "-" (fun _ => true)
           (fun cfg _ => (cfg, None)) "1.0.23" options Herr).
Defined.

Lemma X12_returned_configuration_witness :
  let options : @Options unit :=
    mkOptions "" "example.com" "-" true false false false false ∅ "nxdomain"
      false false None in
  let options' : @Options unit :=
    mkOptions "" "example.com" "-" true false false false false {[ 3 ]} "nxdomain"
      true false (Some tt) in
  ParseOptions lowerASCII tt "-" (fun _ => false) (fun cfg _ => (cfg, None))
    "1.0.23" options
    = ([SetMaxLevel LevelSilent; showBanner], Return options')
  ∧ rcodes options' ≠ ∅
  ∧ validateOptions "-" options' = None.
Proof.
  intros options options'.
  assert (Hret : ParseOptions lowerASCII tt "-" (fun _ => false)
                   (fun cfg _ => (cfg, None)) "1.0.23" options
                 = ([SetMaxLevel LevelSilent; showBanner], Return options'))
    by (vm_compute; reflexivity).
  split; [exact Hret|].
  pose proof (X12_returned_configuration lowerASCII tt "-" (fun _ => false)
                (fun cfg _ => (cfg, None)) "1.0.23" options _ options' Hret)
    as (_ & Hne & _ & Hval & _).
  split; [exact Hne|exact Hval].
Defined.

